(** * grunt-ss-helpers: the helper functions of [lib/grunt-helpers.js]

    A shallow embedding of the helpers that run shell commands one after the
    other and report file statistics, together with the properties their
    specification states about them.

    The file has three layers.
    - The module [JS]: the values of the language the helpers are written
      in, as far as the helpers use them: truthiness, [typeof], string
      conversion, and the two number formatters ([String(n)] and
      [n.toFixed(d)]) over binary64.
    - The host: what the helpers call but do not define
      ([child_process.exec], [grunt.file.read], [zlib.gzip], [fs.lstatSync],
      [console.log], the promises of [when], the string colours of
      [colors]), as a class [System] of the machine's answers, and the monad
      [M] the helpers run in: state, exceptions and a trace of events.
    - The helpers of [lib/grunt-helpers.js], each under the name it has
      there, followed by their properties. *)

From Stdlib Require Import String Ascii List ZArith QArith Bool Lia.
From Stdlib Require Import Floats DecimalString.
From Stdlib.Strings Require Import Byte.
Import ListNotations.

#[local] Open Scope list_scope.
#[local] Open Scope string_scope.

(* ===================================================================== *)
(** * The values of the language *)
(* ===================================================================== *)

Module JS.

(** An [Error] object, as far as the helpers look at one: they only pass it
    on (to [console.log], to [reject]). *)
Record error : Set := Error { name : string; message : string }.

Definition TypeError (msg : string) : error := Error "TypeError" msg.

(** The values a descriptor field, a callback argument or a logged message
    can hold.  Objects other than errors and functions are left out: no
    helper is handed one in the places modelled here.  A string is a
    sequence of code units; the code units of this model are 8 bits wide. *)
Inductive value : Set :=
| Undefined
| Null
| Bool (b : bool)
| Num (x : float)
| Str (s : string)
| Err (e : error).

(** ** Numbers

    A number is an IEEE 754 binary64 value: [float], with the kernel's
    arithmetic (round to nearest, ties to even), which is the arithmetic of
    the language. *)

(** The number nearest to an integer ([ToNumber] of an integer: exact up to
    2^53, which covers every length a string or a buffer can have). *)
Definition Number_of_Z (z : Z) : float :=
  SF2Prim (binary_normalize prec emax z 0 false).

Definition Number_of_nat (n : nat) : float := Number_of_Z (Z.of_nat n).

(** [ToBoolean]. *)
Definition ToBoolean (v : value) : bool :=
  match v with
  | Undefined | Null => false
  | Bool b => b
  | Num x => negb (PrimFloat.is_nan x || PrimFloat.is_zero x)
  | Str s => negb (String.eqb s "")
  | Err _ => true
  end.

(** The operator [typeof]. *)
Definition typeof (v : value) : string :=
  match v with
  | Undefined => "undefined"
  | Null => "object"
  | Bool _ => "boolean"
  | Num _ => "number"
  | Str _ => "string"
  | Err _ => "object"
  end.

(** ** Decimal numerals *)

(** The decimal numeral of a natural number given as a [Z]. *)
Definition digits (n : Z) : string := NilZero.string_of_int (Z.to_int n).

Fixpoint zeros (n : nat) : string :=
  match n with
  | O => ""
  | S n => String "0" (zeros n)
  end.

(** The exact value of a finite number with mantissa [m] and exponent [e]. *)
Definition exact (m : positive) (e : Z) : Q := inject_Z (Zpos m) * (2 ^ e)%Q.

Definition pow10 (p : Z) : Q := (10 ^ p)%Q.

(** [floor q] for [q >= 0]. *)
Definition floor (q : Q) : Z := (Qnum q / Zpos (Qden q))%Z.

Definition Qlt_bool (a b : Q) : bool := negb (Qle_bool b a).

Definition Qabs_diff (a b : Q) : Q := if Qle_bool a b then b - a else a - b.

(** *** [Number.prototype.toFixed]

    ECMAScript, Number.prototype.toFixed(fractionDigits): a value that is
    not finite prints as [String] prints it; otherwise the sign, then the
    integer [n] for which [n / 10^f - x] is as close to zero as possible
    (the larger one when there are two), written with [f] digits after the
    point.  From 10^21 on the method hands over to [String]. *)

(** The integer nearest to [x * 10^f], the larger of two. *)
Definition nearest_scaled (f : nat) (x : Q) : Z :=
  floor (x * pow10 (Z.of_nat f) + (1 # 2)).

Definition fixed_numeral (f : nat) (n : Z) : string :=
  let m := digits n in
  match f with
  | O => m
  | _ =>
    let m := if (String.length m <=? f)%nat
             then zeros (f + 1 - String.length m) ++ m else m in
    let k := String.length m in
    substring 0 (k - f) m ++ "." ++ substring (k - f) f m
  end.

(** *** [Number::toString]

    ECMAScript, Number::toString(x) in radix 10: the digits are those of the
    shortest decimal [s * 10^(n-k)] (with [k] digits) that reads back as
    [x]; among several of that length, the one closest to [x]. *)

(** The decimals that read back as [m * 2^e] are those between the midpoints
    to the two neighbouring numbers, the midpoints included when [m] is even
    (ties go to the even mantissa). *)
Definition reads_back (m : positive) (e : Z) (v : Q) : bool :=
  let x := exact m e in
  let up := (1 # 2) * (2 ^ e)%Q in
  let down := if (Pos.eqb m 4503599627370496 && (-1074 <? e)%Z)%bool
              then (1 # 4) * (2 ^ e)%Q else up in
  if Z.even (Zpos m)
  then Qle_bool (x - down) v && Qle_bool v (x + up)
  else Qlt_bool (x - down) v && Qlt_bool v (x + up).

(** The [n] with [10^(n-1) <= x < 10^n], searched around its estimate from
    the binary exponent. *)
Definition decimal_exponent (m : positive) (e : Z) : Z :=
  let x := exact m e in
  let est := ((e + Z.log2 (Zpos m)) * 30103 / 100000)%Z in
  let fix search (fuel : nat) (n : Z) : Z :=
    match fuel with
    | O => n
    | S fuel => if Qlt_bool x (pow10 n) then n else search fuel (n + 1)%Z
    end in
  search 6%nat (est - 2)%Z.

(** The candidates with [k] digits: the two multiples of [10^(n-k)] around
    [x], for [n] the decimal exponent of [x] and the next one. *)
Definition candidates (m : positive) (e : Z) (k : Z) : list (Z * Z) :=
  let x := exact m e in
  let n0 := decimal_exponent m e in
  flat_map (fun n =>
    let s := floor (x / pow10 (n - k)) in
    filter (fun sn =>
              let s := fst sn in
              (10 ^ (k - 1) <=? s)%Z && (s <? 10 ^ k)%Z
              && reads_back m e (inject_Z s * pow10 (n - k)))
           [(s, n); ((s + 1)%Z, n)])
    [n0; (n0 + 1)%Z].

(** Of two candidates the one closer to [x], the even one on a tie. *)
Definition closer (x : Q) (k : Z) (a b : Z * Z) : Z * Z :=
  let da := Qabs_diff (inject_Z (fst a) * pow10 (snd a - k)) x in
  let db := Qabs_diff (inject_Z (fst b) * pow10 (snd b - k)) x in
  if Qlt_bool da db then a
  else if Qlt_bool db da then b
  else if Z.even (fst a) then a else b.

(** [(s, k, n)] for the finite number [m * 2^e]; 17 digits always suffice
    for binary64, so the search ends before its fuel does. *)
Fixpoint shortest_from (fuel : nat) (m : positive) (e : Z) (k : Z) : Z * Z * Z :=
  match fuel with
  | O => (0, 1, 0)%Z
  | S fuel =>
    match candidates m e k with
    | [] => shortest_from fuel m e (k + 1)%Z
    | c :: cs =>
      let best := fold_left (closer (exact m e) k) cs c in
      (fst best, k, snd best)
    end
  end.

Definition shortest (m : positive) (e : Z) : Z * Z * Z := shortest_from 21 m e 1.

(** The layout of the digits [s] (there are [k] of them) with decimal
    exponent [n]: plain up to 21 digits before the point and down to six
    zeros after it, with an exponent otherwise. *)
Definition layout (skn : Z * Z * Z) : string :=
  let '(s, k, n) := skn in
  let d := digits s in
  if ((k <=? n) && (n <=? 21))%Z then d ++ zeros (Z.to_nat (n - k))
  else if ((0 <? n) && (n <=? 21))%Z then
    substring 0 (Z.to_nat n) d ++ "." ++ substring (Z.to_nat n) (Z.to_nat (k - n)) d
  else if ((-6 <? n) && (n <=? 0))%Z then "0." ++ zeros (Z.to_nat (- n)) ++ d
  else
    let ex := (n - 1)%Z in
    let tail := "e" ++ (if (ex <? 0)%Z then "-" else "+") ++ digits (Z.abs ex) in
    if (k =? 1)%Z then d ++ tail
    else substring 0 1 d ++ "." ++ substring 1 (Z.to_nat (k - 1)) d ++ tail.

Definition Number_toString (x : float) : string :=
  match Prim2SF x with
  | S754_nan => "NaN"
  | S754_zero _ => "0"
  | S754_infinity s => (if s then "-" else "") ++ "Infinity"
  | S754_finite s m e => (if s then "-" else "") ++ layout (shortest m e)
  end.

Definition Number_toFixed (x : float) (fractionDigits : nat) : string :=
  match Prim2SF x with
  | S754_finite s m e =>
    (if s then "-" else "") ++
    (if Qle_bool (pow10 21) (exact m e)
     then layout (shortest m e)
     else fixed_numeral fractionDigits (nearest_scaled fractionDigits (exact m e)))
  | S754_zero _ => fixed_numeral fractionDigits 0
  | _ => Number_toString x
  end.

(** [ToString]. *)
Definition ToString (v : value) : string :=
  match v with
  | Undefined => "undefined"
  | Null => "null"
  | Bool true => "true"
  | Bool false => "false"
  | Num x => Number_toString x
  | Str s => s
  | Err e => if String.eqb (message e) "" then name e else name e ++ ": " ++ message e
  end.

(** The formatters on some numbers, as an engine prints them (the decimals
    name the nearest binary64 value, as they do in the language). *)
#[local] Set Warnings "-inexact-float".

Example Number_toString_examples :
  map Number_toString
      [0.1; 1e21; 1e-7; 123456789012345680000; 0.000001; 21; -2000; 0.5; nan;
       neg_infinity]%float
  = ["0.1"; "1e+21"; "1e-7"; "123456789012345680000"; "0.000001"; "21"; "-2000";
     "0.5"; "NaN"; "-Infinity"].
Proof. vm_compute. reflexivity. Qed.

Example Number_toFixed_examples :
  map (fun x => Number_toFixed x 2)
      [0.5; 1.005; 2.675; 37.5; -2000; 0; -0.001; 0.0205078125; infinity]%float
  = ["0.50"; "1.00"; "2.67"; "37.50"; "-2000.00"; "0.00"; "-0.00"; "0.02";
     "Infinity"].
Proof. vm_compute. reflexivity. Qed.

End JS.

(* ===================================================================== *)
(** * What the helpers call: the host *)
(* ===================================================================== *)

(** ** Data of the host *)

(** What [child_process.exec] hands to its callback: [(err, stdout, stderr)],
    [err] being [null] when the command ended well. *)
Record exec_result : Set :=
  { err : option JS.error; stdout : string; stderr : string }.

(** An [fs.Stats] record, as far as [isFile] and [isSymbolicLink] read it:
    both compare the file-type bits of [mode] with a constant. *)
Record Stats : Set := { mode : Z }.

Definition S_IFMT : Z := 61440.   (* 0170000 *)
Definition S_IFREG : Z := 32768.  (* 0100000 *)
Definition S_IFDIR : Z := 16384.  (* 0040000 *)
Definition S_IFLNK : Z := 40960.  (* 0120000 *)

Definition checkModeProperty (st : Stats) (property : Z) : bool :=
  (Z.land (mode st) S_IFMT =? property)%Z.

Definition isFile (st : Stats) : bool := checkModeProperty st S_IFREG.
Definition isDirectory (st : Stats) : bool := checkModeProperty st S_IFDIR.
Definition isSymbolicLink (st : Stats) : bool := checkModeProperty st S_IFLNK.

(** The machine the helpers run on.  [sys] is its state (the file system,
    whatever a command may change); a command changes it, the three file
    operations only look at it.  The left injection is a failure: an [err]
    handed to the callback for [gzip], a raised exception for the two
    synchronous calls [read] ([grunt.file.read]) and [lstat]
    ([fs.lstatSync]), which have no other way to report one. *)
Class System : Type :=
  { sys : Type;
    os_exec : string -> sys -> exec_result * sys;
    os_read : string -> sys -> JS.error + string;
    os_gzip : string -> sys -> JS.error + list byte;
    os_lstat : string -> sys -> JS.error + Stats }.

(** ** Data of the helpers *)

(** The output file a descriptor carries for the statistics. *)
Module FileObj.
Record t : Set := Build { dest : JS.value }.
End FileObj.

(** A command descriptor: the command, the label of its target, and the
    output file ([fileObj] may be absent: [runCommands] never reads it). *)
Record commandObj : Set :=
  { cmd : string; dest : JS.value; fileObj : option FileObj.t }.

Definition set_dest (c : commandObj) (v : JS.value) : commandObj :=
  {| cmd := cmd c; dest := v; fileObj := fileObj c |}.

(** [options], as far as [runStats] reads it. *)
Record StatsOptions : Set := { compile : bool }.

(** ** What a run leaves behind *)

(** What can be observed of a run: the calls to the host, the lines logged,
    and the calls of the callback the caller handed in. *)
Inductive event : Set :=
| Exec (command : string)
| Read (filepath : string)
| Gzip (src : string)
| Lstat (path : string)
| Log (msg : JS.value)
| Call (args : list JS.value).

(** How a call ends: it returns, it raises, or the model ran out of fuel
    ([Unfinished]; see [runCommands] and [runStats], whose fuel suffices). *)
Inductive outcome (A : Type) : Type :=
| Returned (a : A)
| Thrown (e : JS.error)
| Unfinished.
Arguments Returned {A} a.
Arguments Thrown {A} e.
Arguments Unfinished {A}.

(** A promise of [when], modelled by the state it settles in. *)
Inductive promise (A : Type) : Type :=
| Fulfilled (a : A)
| Rejected (reason : JS.error).
Arguments Fulfilled {A} a.
Arguments Rejected {A} reason.

Section Monad.
Context {Sys : System}.

(** The state a run works on: the machine, and the array [commands] that
    [runCommands] and [runStats] are handed and shift their work from.  All
    the calls of one run share the one array. *)
Record state : Type := { machine : sys; commands : list commandObj }.

Record run (A : Type) : Type :=
  { result : outcome A; final : state; events : list event }.
Arguments result {A} r.
Arguments final {A} r.
Arguments events {A} r.
Arguments Build_run {A} result final events.

(** A computation: from a state to how it ended, the state it left and the
    events it caused, in the order they happened.  The callbacks of the
    asynchronous calls run when their operation is over; one operation is
    under way at a time, so a run is the sequence of its steps. *)
Definition M (A : Type) : Type := state -> run A.

Definition ret {A} (a : A) : M A := fun s => Build_run (Returned a) s [].

(** [r], after the events of [t]. *)
Definition after {A} (t : list event) (r : run A) : run A :=
  match r with
  | Build_run o s u => Build_run o s (t ++ u)%list
  end.

Definition bind {A B} (m : M A) (k : A -> M B) : M B :=
  fun s =>
    match m s with
    | Build_run (Returned a) s1 t => after t (k a s1)
    | Build_run (Thrown e) s1 t => Build_run (Thrown e) s1 t
    | Build_run Unfinished s1 t => Build_run Unfinished s1 t
    end.

Definition throw {A} (e : JS.error) : M A := fun s => Build_run (Thrown e) s [].

Definition out_of_fuel {A} : M A := fun s => Build_run Unfinished s [].

(** [try { m } catch (e) { handler e }]. *)
Definition try_catch {A} (m : M A) (handler : JS.error -> M A) : M A :=
  fun s =>
    match m s with
    | Build_run (Thrown e) s1 t => after t (handler e s1)
    | r => r
    end.

Definition emit (e : event) : M unit := fun s => Build_run (Returned tt) s [e].

End Monad.

Arguments result {Sys A} r.
Arguments final {Sys A} r.
Arguments events {Sys A} r.
Arguments Build_run {Sys A} result final events.

Declare Scope helper_scope.
Delimit Scope helper_scope with helper.
Notation "x <- m ;; k" := (bind m (fun x => k))
  (at level 61, m at next level, right associativity) : helper_scope.
Notation "m ;; k" := (bind m (fun _ => k))
  (at level 61, right associativity) : helper_scope.
#[local] Open Scope helper_scope.

Section Helpers.
Context {Sys : System}.
Import JS.

(** ** The calls to the host *)

Definition with_machine {A} (f : sys -> A) : M A :=
  fun s => Build_run (Returned (f (machine s))) s [].

(** [exec(command, function (err, stdout, stderr) ...)]: the result is what
    the callback is handed. *)
Definition child_process_exec (command : string) : M exec_result :=
  fun s =>
    let (r, m) := os_exec command (machine s) in
    Build_run (Returned r) {| machine := m; commands := commands s |} [Exec command].

(** [grunt.file.read(filepath)]: the contents, or an exception. *)
Definition grunt_file_read (filepath : string) : M string :=
  emit (Read filepath) ;;
  r <- with_machine (os_read filepath) ;;
  match r with
  | inl e => throw e
  | inr src => ret src
  end.

(** [gzip(src, function (err, result) ...)]: what the callback is handed. *)
Definition zlib_gzip (src : string) : M (error + list byte) :=
  emit (Gzip src) ;;
  with_machine (os_gzip src).

(** [fs.lstatSync(path)]: the record, or an exception. *)
Definition fs_lstatSync (path : string) : M Stats :=
  emit (Lstat path) ;;
  r <- with_machine (os_lstat path) ;;
  match r with
  | inl e => throw e
  | inr st => ret st
  end.

Definition console_log (msg : value) : M unit := emit (Log msg).

(** [commands.shift()]: the first element leaves the array; [None] is the
    [undefined] an empty array gives. *)
Definition Array_shift : M (option commandObj) :=
  fun s =>
    match commands s with
    | [] => Build_run (Returned None) s []
    | c :: rest =>
      Build_run (Returned (Some c)) {| machine := machine s; commands := rest |} []
    end.

(** The [i]-th argument of a call, [undefined] when it was not passed. *)
Definition argument (i : nat) (args : list value) : value := nth i args Undefined.

(** ** Strings of the [colors] module

    [grunt] loads [colors], which gives every string the getters [red],
    [green], [blue]: the string between two escape sequences. *)
Definition ESC : string := String (ascii_of_nat 27) "".

Definition stylize (open : string) (s : string) : string :=
  ESC ++ "[" ++ open ++ "m" ++ s ++ ESC ++ "[39m".

Definition red := stylize "31".
Definition green := stylize "32".
Definition blue := stylize "34".

(** [v.p], for the properties the helpers read: of [undefined] and [null] it
    raises, a string has its [length] and its colours, and whatever else is
    asked for is [undefined]. *)
Definition Get (v : value) (p : string) : M value :=
  match v with
  | Undefined | Null =>
    throw (TypeError ("Cannot read property '" ++ p ++ "' of " ++ ToString v))
  | Str s =>
    if String.eqb p "length" then ret (Num (Number_of_nat (String.length s)))
    else if String.eqb p "red" then ret (Str (red s))
    else if String.eqb p "green" then ret (Str (green s))
    else if String.eqb p "blue" then ret (Str (blue s))
    else ret Undefined
  | _ => ret Undefined
  end.

(** [p.then(onFulfilled)] and [p.otherwise(onRejected)]: a handler that
    raises rejects the promise that is returned; nothing is raised to the
    caller. *)

Definition promise_then {A B} (p : promise A) (onFulfilled : A -> M B) : M (promise B) :=
  match p with
  | Fulfilled a =>
    try_catch (b <- onFulfilled a ;; ret (Fulfilled b)) (fun e => ret (Rejected e))
  | Rejected e => ret (Rejected e)
  end.

Definition promise_otherwise {A} (p : promise A) (onRejected : error -> M A) : M (promise A) :=
  match p with
  | Fulfilled a => ret (Fulfilled a)
  | Rejected e =>
    try_catch (a <- onRejected e ;; ret (Fulfilled a)) (fun e' => ret (Rejected e'))
  end.

(* ===================================================================== *)
(** * The helpers *)
(* ===================================================================== *)

Definition unless (b : bool) (m : M unit) : M unit := if b then ret tt else m.

(** [helpers.log]: each of [warn], [info], [error] is [console.log]. *)
Definition log_warn (msg : value) : M unit := console_log msg.
Definition log_info (msg : value) : M unit := console_log msg.
Definition log_error (msg : value) : M unit := console_log msg.

(** [helpers.executeCommand] *)
Definition executeCommand (command : string) (done : list value -> M unit)
    (optSilent : bool) : M unit :=
  unless optSilent (log_info (Str (blue "Executing: " ++ command))) ;;
  r <- child_process_exec command ;;
  match err r with
  | Some e =>
    log_error (Err e) ;;
    done [Bool false; Str (stderr r); Str (stdout r)]
  | None =>
    unless optSilent
      (log_info (if ToBoolean (Str (stdout r)) then Str (stdout r) else Str (stderr r))) ;;
    done [Bool true]
  end.

(** [helpers.gzipfile]: the deferred it returns, settled by the callback of
    [gzip].  The file is read before [gzip] is called, outside any handler. *)
Definition gzipfile (filename : string) : M (promise (list byte)) :=
  src <- grunt_file_read filename ;;
  r <- zlib_gzip src ;;
  match r with
  | inl e => ret (Rejected e)
  | inr result => ret (Fulfilled result)
  end.

(** [helpers.gzipSize].  [gzipfile] returns the deferred itself, not its
    promise; [then] is called on it as on the promise, which the deferreds
    of the [when] this was written for allow. *)
Definition gzipSize (file : string) (callback : float -> M unit) : M (promise unit) :=
  d <- gzipfile file ;;
  p <- promise_then d (fun res => callback (Number_of_nat (List.length res))) ;;
  promise_otherwise p (fun _ => callback nan).

(** The figure [generateStats] prints after the gzipped size. *)
Definition percent (gzipSize compiledSize : float) : string :=
  "-" ++ Number_toFixed ((1 - gzipSize / compiledSize) * 100)%float 2 ++ "%".

Definition TAB : string := String (ascii_of_nat 9) "".

(** The callback [generateStats] hands to [gzipSize]. *)
Definition generateStats_callback (filePath : string) (fn : list value -> M unit)
    (gzipSize : float) : M unit :=
  if negb (ToBoolean (Num gzipSize)) then fn [Bool false]
  else
    src <- grunt_file_read filePath ;;
    let compiledSize := Number_of_nat (String.length src) in
    let percent := percent gzipSize compiledSize in
    log_info (Str ("Compiled size:" ++ TAB
                   ++ green (Number_toFixed (compiledSize / 1024)%float 2)
                   ++ " kb " ++ TAB ++ "("
                   ++ green (Number_toString compiledSize) ++ " bytes)")) ;;
    log_info (Str ("GZipped size:" ++ TAB
                   ++ green (Number_toFixed (gzipSize / 1024)%float 2)
                   ++ " kb " ++ TAB ++ "("
                   ++ green (Number_toString gzipSize) ++ " bytes) " ++ percent)) ;;
    fn [Bool true].

(** [helpers.generateStats]: the promise [gzipSize] returns is dropped. *)
Definition generateStats (filePath : string) (fn : list value -> M unit) : M unit :=
  gzipSize filePath (generateStats_callback filePath fn) ;;
  ret tt.

(** [helpers.fileExists] *)
Definition fileExists (filePath : string) : M bool :=
  try_catch
    (stat <- fs_lstatSync filePath ;;
     if isFile stat || isSymbolicLink stat then ret true else ret false)
    (fun ex => ret false).

(** [helpers.runCommands].  Every call shifts the array before it calls
    itself, so a call on an array of [n] elements is at most [n] calls deep:
    [fuel] counts the calls that are left. *)
Fixpoint runCommands_from (fuel : nat) (cb : list value -> M unit) (optSilent : bool)
    : M unit :=
  match fuel with
  | O => out_of_fuel
  | S fuel =>
    commandObj <- Array_shift ;;
    match commandObj with
    | None => cb [Bool true]
    | Some commandObj =>
      executeCommand (cmd commandObj)
        (fun args =>
           let state := argument 0 args in
           let stderr := argument 1 args in
           let stdout := argument 2 args in
           if ToBoolean state then
             unless optSilent
               (log_info (Str ("Command complete for target: "
                               ++ ToString (dest commandObj)))) ;;
             runCommands_from fuel cb optSilent
           else
             let commandObj :=
               if negb (String.eqb "string" (typeof (dest commandObj)))
               then set_dest commandObj (Str "undefined") else commandObj in
             label <- Get (dest commandObj) "red" ;;
             log_error (Str ("FAILED to run command for target: " ++ ToString label)) ;;
             cb [Bool false; stderr; stdout])
        optSilent
    end
  end.

Definition runCommands (cb : list value -> M unit) (optSilent : bool) : M unit :=
  fun s => runCommands_from (S (List.length (commands s))) cb optSilent s.

(** [helpers.runStats], with its fuel as for [runCommands]. *)
Fixpoint runStats_from (fuel : nat) (options : StatsOptions) (cb : list value -> M unit)
    : M unit :=
  match fuel with
  | O => out_of_fuel
  | S fuel =>
    commandObj <- Array_shift ;;
    match commandObj with
    | None => cb [Bool true]
    | Some commandObj =>
      if compile options then
        dest <- match fileObj commandObj with
                | Some f => ret (FileObj.dest f)
                | None => throw (TypeError "Cannot read property 'dest' of undefined")
                end ;;
        len <- (if ToBoolean dest then Get dest "length" else ret dest) ;;
        if ToBoolean len then
          label <- Get dest "green" ;;
          log_info (Str ("File statistics for " ++ ToString label)) ;;
          generateStats (ToString dest) (fun _ => runStats_from fuel options cb)
        else ret tt
      else cb [Bool true]
    end
  end.

Definition runStats (options : StatsOptions) (cb : list value -> M unit) : M unit :=
  fun s => runStats_from (S (List.length (commands s))) options cb s.

(** The callback of the properties below: it records the call. *)
Definition report (args : list value) : M unit := emit (Call args).

End Helpers.

(* ===================================================================== *)
(** * Reading a run *)
(* ===================================================================== *)

(** The commands handed to the shell, in the order they were. *)
Fixpoint executed (t : list event) : list string :=
  match t with
  | [] => []
  | Exec command :: t => command :: executed t
  | _ :: t => executed t
  end.

(** The calls of the caller's callback, each with its arguments. *)
Fixpoint calls (t : list event) : list (list JS.value) :=
  match t with
  | [] => []
  | Call args :: t => args :: calls t
  | _ :: t => calls t
  end.

(** The events of the file statistics: a file read, a compression, a line
    logged. *)
Definition stats_event (e : event) : bool :=
  match e with
  | Read _ | Gzip _ | Log _ => true
  | _ => false
  end.

Lemma executed_app (t u : list event) :
  executed (t ++ u) = (executed t ++ executed u)%list.
Proof.
  induction t as [|e t IH]; simpl; [reflexivity|].
  destruct e; simpl; rewrite IH; reflexivity.
Qed.

Lemma calls_app (t u : list event) : calls (t ++ u) = (calls t ++ calls u)%list.
Proof.
  induction t as [|e t IH]; simpl; [reflexivity|].
  destruct e; simpl; rewrite IH; reflexivity.
Qed.

(** [l] is what is left of [q] after some elements were shifted from it. *)
Definition remainder_of {A} (l q : list A) : Prop := exists n, l = skipn n q.

Lemma remainder_refl {A} (q : list A) : remainder_of q q.
Proof. exists 0%nat; reflexivity. Qed.

Lemma remainder_trans {A} (l1 l2 l3 : list A) :
  remainder_of l1 l2 -> remainder_of l2 l3 -> remainder_of l1 l3.
Proof.
  intros [n ->] [k ->]. exists (n + k)%nat. apply skipn_skipn.
Qed.

Lemma remainder_tail {A} (a : A) (q : list A) : remainder_of q (a :: q).
Proof. exists 1%nat; reflexivity. Qed.

(* ===================================================================== *)
(** * Machines to run the helpers on *)
(* ===================================================================== *)

(** A shell on which the command [false] fails, printing to both streams,
    and every other command succeeds; no files. *)
Definition no_such_file (path : string) : JS.error :=
  JS.Error "Error" ("Unable to read " ++ path).

Definition shell_only : System :=
  {| sys := unit;
     os_exec := fun command _ =>
       if String.eqb command "false"
       then ({| err := Some (JS.Error "Error" "Command failed: false");
                stdout := "out"; stderr := "oops" |}, tt)
       else ({| err := None; stdout := "ok"; stderr := "" |}, tt);
     os_read := fun path _ => inl (no_such_file path);
     os_gzip := fun _ _ => inr [];
     os_lstat := fun path _ => inl (no_such_file path) |}.

(** The gzip stream of the one-character file [a]: ten bytes of header, the
    deflated block, the checksum and the length. *)
Definition gzip_of_a : list byte :=
  [x1f; x8b; x08; x00; x00; x00; x00; x00; x00; x03;
   x4b; x04; x00;
   x43; xbe; xb7; xe8; x01; x00; x00; x00].

(** A machine with three files: [a.js] holds the character [a]; [big.js]
    cannot be compressed; [dir] is a directory and [link] a symbolic link.
    Every other path is missing. *)
Definition three_files : System :=
  {| sys := unit;
     os_exec := fun _ _ => ({| err := None; stdout := ""; stderr := "" |}, tt);
     os_read := fun path _ =>
       if String.eqb path "a.js" then inr "a"
       else if String.eqb path "big.js" then inr "bbbbbbbb"
       else inl (no_such_file path);
     os_gzip := fun src _ =>
       if String.eqb src "a" then inr gzip_of_a
       else inl (JS.Error "Error" "out of memory");
     os_lstat := fun path _ =>
       if String.eqb path "a.js" then inr {| mode := 33188 |}       (* 0100644 *)
       else if String.eqb path "big.js" then inr {| mode := 33188 |}
       else if String.eqb path "dir" then inr {| mode := 16877 |}   (* 0040755 *)
       else if String.eqb path "link" then inr {| mode := 41471 |}  (* 0120777 *)
       else inl (no_such_file path) |}.

Definition start (Sys : System) (m : @sys Sys) (q : list commandObj) : state :=
  {| machine := m; commands := q |}.

(* ===================================================================== *)
(** * Shell commands that succeed, and the first that fails *)
(* ===================================================================== *)

Section Shell.
Context {Sys : System}.

(** The machine after the commands of [pre], run in order from [m], when
    each of them ends without an [err]; [None] as soon as one fails. *)
Fixpoint succeed_all (m : sys) (pre : list commandObj) : option sys :=
  match pre with
  | [] => Some m
  | c :: pre =>
    let (r, m') := os_exec (cmd c) m in
    match err r with
    | None => succeed_all m' pre
    | Some _ => None
    end
  end.

(** The line [executeCommand] logs before it runs a command. *)
Definition announce (optSilent : bool) (command : string) : list event :=
  if optSilent then [] else [Log (JS.Str (blue "Executing: " ++ command))].

(** The label [runCommands] logs for a command that failed. *)
Definition failure_label (c : commandObj) : string :=
  match dest c with
  | JS.Str s => red s
  | _ => red "undefined"
  end.

End Shell.

(* ===================================================================== *)
(** * Properties of the command pipeline *)
(* ===================================================================== *)

Section Properties.
Context {Sys : System}.
Import JS.

(** C6. On an empty array [runCommands] is one call of the callback, with
    [true] and no other argument, whatever the callback is; with the callback
    that records its calls, that call is the only event of the run, so the
    shell is never asked for anything. *)
Theorem runCommands_empty_queue (m : sys) (optSilent : bool)
    (cb : list value -> M unit) :
  let s := {| machine := m; commands := [] |} in
  runCommands cb optSilent s = cb [Bool true] s
  /\ runCommands report optSilent s = Build_run (Returned tt) s [Call [Bool true]]
  /\ executed (events (runCommands report optSilent s)) = [].
Proof.
  intro s. split; [|split].
  - unfold runCommands, s. cbn.
    destruct (cb [Bool true] _) as [res fin evs]. reflexivity.
  - reflexivity.
  - reflexivity.
Qed.

(** C7. With [compile] false [runStats] calls the callback with [true] and
    does nothing else, whatever the array holds: no file is read, nothing is
    compressed, nothing is logged, the machine is left as it was, and no
    element but the first has left the array. *)
Theorem runStats_without_compile (m : sys) (q : list commandObj) :
  let r := runStats {| compile := false |} report {| machine := m; commands := q |} in
  result r = Returned tt
  /\ events r = [Call [Bool true]]
  /\ filter stats_event (events r) = []
  /\ final r = {| machine := m; commands := tl q |}.
Proof.
  destruct q as [|c q]; cbn; repeat split; reflexivity.
Qed.

End Properties.

Section Pipeline.
Context {Sys : System}.
Import JS.

Lemma after_nil {A} (r : run A) : after [] r = r.
Proof. destruct r; reflexivity. Qed.

Lemma after_after {A} (t u : list event) (r : run A) :
  after t (after u r) = after (t ++ u) r.
Proof. destruct r as [o s v]. simpl. rewrite app_assoc. reflexivity. Qed.

(** One call of [runCommands] on a command that succeeds: the command is
    run, and the next call goes on from the rest of the array. *)
Lemma runCommands_from_success (fuel : nat) (cb : list value -> M unit)
    (optSilent : bool) (m m' : sys) (c : commandObj) (rest : list commandObj)
    (r : exec_result) :
  os_exec (cmd c) m = (r, m') -> err r = None ->
  exists t, executed t = [cmd c] /\ calls t = [] /\
    runCommands_from (S fuel) cb optSilent {| machine := m; commands := c :: rest |}
    = after t (runCommands_from fuel cb optSilent {| machine := m'; commands := rest |}).
Proof.
  intros Hexec Herr.
  exists (announce optSilent (cmd c) ++ [Exec (cmd c)]
          ++ (if optSilent then []
              else [Log (if ToBoolean (Str (stdout r)) then Str (stdout r)
                         else Str (stderr r));
                    Log (Str ("Command complete for target: " ++ ToString (dest c)))]))%list.
  split; [|split].
  - destruct optSilent; reflexivity.
  - destruct optSilent; reflexivity.
  - cbn [runCommands_from]. unfold bind at 1. cbn [Array_shift commands after app].
    unfold executeCommand, bind, child_process_exec.
    destruct optSilent; cbn; rewrite Hexec; cbn; rewrite Herr; cbn;
      destruct (runCommands_from fuel cb _ _); reflexivity.
Qed.

(** The calls of [runCommands] on commands that succeed: they are run in
    order, the callback is not called, and the run goes on from what follows
    them in the array. *)
Lemma runCommands_from_prefix (cb : list value -> M unit) (optSilent : bool)
    (pre : list commandObj) :
  forall (fuel : nat) (m m1 : sys) (rest : list commandObj),
  succeed_all m pre = Some m1 ->
  exists t, executed t = map cmd pre /\ calls t = [] /\
    runCommands_from (List.length pre + fuel) cb optSilent
      {| machine := m; commands := (pre ++ rest)%list |}
    = after t (runCommands_from fuel cb optSilent {| machine := m1; commands := rest |}).
Proof.
  induction pre as [|c pre IH]; intros fuel m m1 rest Hpre.
  - injection Hpre as <-. exists []. repeat split. symmetry; apply after_nil.
  - simpl in Hpre. destruct (os_exec (cmd c) m) as [r m'] eqn:Hexec.
    destruct (err r) eqn:Herr; [discriminate|].
    destruct (runCommands_from_success (List.length pre + fuel) cb optSilent
                m m' c (pre ++ rest)%list r Hexec Herr) as (t1 & Ht1 & Hc1 & Hrun1).
    destruct (IH fuel m' m1 rest Hpre) as (t2 & Ht2 & Hc2 & Hrun2).
    exists (t1 ++ t2)%list. split; [|split].
    + rewrite executed_app, Ht1, Ht2. reflexivity.
    + rewrite calls_app, Hc1, Hc2. reflexivity.
    + change (List.length (c :: pre) + fuel)%nat with (S (List.length pre + fuel)).
      change ((c :: pre) ++ rest)%list with (c :: (pre ++ rest))%list.
      rewrite Hrun1, Hrun2. apply after_after.
Qed.

(** One call of [runCommands] on a command that fails: the command is run,
    its [err] is logged, then the failure under the label of the command,
    and the callback is called; the rest of the array is left as it is. *)
Lemma runCommands_from_failure (fuel : nat) (optSilent : bool)
    (m m' : sys) (c : commandObj) (rest : list commandObj)
    (r : exec_result) (e : error) :
  os_exec (cmd c) m = (r, m') -> err r = Some e ->
  runCommands_from (S fuel) report optSilent {| machine := m; commands := c :: rest |}
  = Build_run (Returned tt) {| machine := m'; commands := rest |}
      (announce optSilent (cmd c)
       ++ [Exec (cmd c); Log (Err e);
           Log (Str ("FAILED to run command for target: " ++ failure_label c));
           Call [Bool false; Str (stderr r); Str (stdout r)]])%list.
Proof.
  intros Hexec Herr.
  destruct c as [command label file]; cbn [cmd] in *.
  cbn [runCommands_from]. unfold bind at 1. cbn [Array_shift commands after app].
  unfold executeCommand, bind, child_process_exec, failure_label.
  destruct label, optSilent; cbn; rewrite Hexec; cbn; rewrite Herr; reflexivity.
Qed.

End Pipeline.

Section FailFast.
Context {Sys : System}.
Import JS.

(** What [runCommands] does on an array whose commands [pre] succeed and
    whose next command [c] fails. *)
Lemma runCommands_until_failure (optSilent : bool) (m m1 m2 : sys)
    (pre post : list commandObj) (c : commandObj) (r : exec_result) (e : error) :
  succeed_all m pre = Some m1 ->
  os_exec (cmd c) m1 = (r, m2) ->
  err r = Some e ->
  exists t, executed t = map cmd pre /\ calls t = [] /\
    runCommands report optSilent {| machine := m; commands := (pre ++ c :: post)%list |}
    = Build_run (Returned tt) {| machine := m2; commands := post |}
        (t ++ announce optSilent (cmd c)
           ++ [Exec (cmd c); Log (Err e);
               Log (Str ("FAILED to run command for target: " ++ failure_label c));
               Call [Bool false; Str (stderr r); Str (stdout r)]])%list.
Proof.
  intros Hpre Hexec Herr.
  destruct (runCommands_from_prefix report optSilent pre (S (S (List.length post)))
              m m1 (c :: post) Hpre) as (t & Ht & Hc & Hrun).
  exists t. split; [exact Ht|]. split; [exact Hc|].
  unfold runCommands. cbn [commands].
  replace (S (List.length (pre ++ c :: post)))
    with (List.length pre + S (S (List.length post)))%nat
    by (rewrite length_app; simpl; lia).
  rewrite Hrun.
  rewrite (runCommands_from_failure _ optSilent m1 m2 c post r e Hexec Herr).
  reflexivity.
Qed.

Lemma executed_announce (optSilent : bool) (command : string) :
  executed (announce optSilent command) = [].
Proof. destruct optSilent; reflexivity. Qed.

Lemma calls_announce (optSilent : bool) (command : string) :
  calls (announce optSilent command) = [].
Proof. destruct optSilent; reflexivity. Qed.

Lemma firstn_past_prefix {A} (pre post : list A) (c : A) :
  firstn (S (List.length pre)) (pre ++ c :: post) = (pre ++ [c])%list.
Proof.
  induction pre as [|a pre IH]; simpl; [reflexivity|].
  f_equal. exact IH.
Qed.

Lemma skipn_past_prefix {A} (pre post : list A) (c : A) :
  skipn (S (List.length pre)) (pre ++ c :: post) = post.
Proof.
  induction pre as [|a pre IH]; simpl; [reflexivity|exact IH].
Qed.

(** C1. In an array of commands whose [k]-th is the first to fail (the
    [k - 1] before it, [pre], succeed when run in order), [runCommands] hands
    exactly the first [k] commands to the shell, in the order of the array,
    and calls the callback once, with [false], the [stderr] and the [stdout]
    of the command that failed; the commands after the [k]-th are not run and
    stay in the array. *)
Theorem runCommands_first_failure (optSilent : bool) (m m1 m2 : sys)
    (pre post : list commandObj) (c : commandObj) (r : exec_result) (e : error) :
  succeed_all m pre = Some m1 ->
  os_exec (cmd c) m1 = (r, m2) ->
  err r = Some e ->
  let k := S (List.length pre) in
  let q := (pre ++ c :: post)%list in
  let run := runCommands report optSilent {| machine := m; commands := q |} in
  result run = Returned tt
  /\ executed (events run) = map cmd (firstn k q)
  /\ List.length (executed (events run)) = k
  /\ calls (events run) = [[Bool false; Str (stderr r); Str (stdout r)]]
  /\ commands (final run) = skipn k q
  /\ machine (final run) = m2.
Proof.
  intros Hpre Hexec Herr k q run.
  destruct (runCommands_until_failure optSilent m m1 m2 pre post c r e Hpre Hexec Herr)
    as (t & Ht & Hc & Hrun).
  assert (Hexecuted : executed (events run) = (map cmd pre ++ [cmd c])%list).
  { unfold run, q. rewrite Hrun. cbn [events].
    rewrite !executed_app, Ht, executed_announce. reflexivity. }
  unfold k, q. rewrite firstn_past_prefix, skipn_past_prefix.
  repeat split.
  - unfold run, q. rewrite Hrun. reflexivity.
  - rewrite Hexecuted, map_app. reflexivity.
  - rewrite Hexecuted, length_app, length_map. simpl. lia.
  - unfold run, q. rewrite Hrun. cbn [events].
    rewrite !calls_app, Hc, calls_announce. reflexivity.
  - unfold run, q. rewrite Hrun. reflexivity.
  - unfold run, q. rewrite Hrun. reflexivity.
Qed.

(** C8. When the command that fails has a [dest] that is not a string (a
    missing one is [undefined]), the failure is logged under the label
    [undefined]: the last three events of the run are the [err] logged, the
    failure line with that label, and the one call of the callback with
    [false], the [stderr] and the [stdout] captured; what follows the command
    in the array is left there, not run. *)
Theorem runCommands_failure_label (optSilent : bool) (m m1 m2 : sys)
    (pre post : list commandObj) (c : commandObj) (r : exec_result) (e : error) :
  succeed_all m pre = Some m1 ->
  os_exec (cmd c) m1 = (r, m2) ->
  err r = Some e ->
  String.eqb "string" (typeof (dest c)) = false ->
  let run := runCommands report optSilent
               {| machine := m; commands := (pre ++ c :: post)%list |} in
  exists t,
    events run
    = (t ++ [Log (Err e);
             Log (Str ("FAILED to run command for target: " ++ red "undefined"));
             Call [Bool false; Str (stderr r); Str (stdout r)]])%list
    /\ calls t = []
    /\ executed t = (map cmd pre ++ [cmd c])%list
    /\ result run = Returned tt
    /\ final run = {| machine := m2; commands := post |}.
Proof.
  intros Hpre Hexec Herr Hdest run.
  destruct (runCommands_until_failure optSilent m m1 m2 pre post c r e Hpre Hexec Herr)
    as (t & Ht & Hc & Hrun).
  assert (Hlabel : failure_label c = red "undefined").
  { unfold failure_label. destruct (dest c); try reflexivity. discriminate Hdest. }
  exists (t ++ announce optSilent (cmd c) ++ [Exec (cmd c)])%list.
  unfold run. rewrite Hrun, Hlabel. cbn [events result final].
  repeat split.
  - rewrite <- !app_assoc. reflexivity.
  - rewrite !calls_app, Hc, calls_announce. reflexivity.
  - rewrite !executed_app, Ht, executed_announce. reflexivity.
Qed.

End FailFast.

(** Three commands on [shell_only]: the second is [false], and has no label. *)
Definition three_commands : list commandObj :=
  [ {| cmd := "true"; dest := JS.Str "a.js"; fileObj := None |};
    {| cmd := "false"; dest := JS.Undefined; fileObj := None |};
    {| cmd := "echo never"; dest := JS.Str "c.js"; fileObj := None |} ].

Lemma runCommands_first_failure_witness :
  let run := @runCommands shell_only report false
               (start shell_only tt three_commands) in
  result run = Returned tt
  /\ executed (events run) = ["true"; "false"]
  /\ List.length (executed (events run)) = 2%nat
  /\ calls (events run) = [[JS.Bool false; JS.Str "oops"; JS.Str "out"]]
  /\ commands (final run) = [ {| cmd := "echo never"; dest := JS.Str "c.js"; fileObj := None |} ]
  /\ @machine shell_only (final run) = tt.
Proof.
  exact (@runCommands_first_failure shell_only false tt tt tt
           [ {| cmd := "true"; dest := JS.Str "a.js"; fileObj := None |} ]
           [ {| cmd := "echo never"; dest := JS.Str "c.js"; fileObj := None |} ]
           {| cmd := "false"; dest := JS.Undefined; fileObj := None |}
           {| err := Some (JS.Error "Error" "Command failed: false");
              stdout := "out"; stderr := "oops" |}
           (JS.Error "Error" "Command failed: false")
           eq_refl eq_refl eq_refl).
Defined.

Lemma runCommands_failure_label_witness :
  let run := @runCommands shell_only report true
               (start shell_only tt three_commands) in
  exists t,
    events run
    = (t ++ [Log (JS.Err (JS.Error "Error" "Command failed: false"));
             Log (JS.Str ("FAILED to run command for target: " ++ red "undefined"));
             Call [JS.Bool false; JS.Str "oops"; JS.Str "out"]])%list
    /\ calls t = []
    /\ executed t = ["true"; "false"]
    /\ result run = Returned tt
    /\ final run = @Build_state shell_only tt
                      [ {| cmd := "echo never"; dest := JS.Str "c.js"; fileObj := None |} ].
Proof.
  exact (@runCommands_failure_label shell_only true tt tt tt
           [ {| cmd := "true"; dest := JS.Str "a.js"; fileObj := None |} ]
           [ {| cmd := "echo never"; dest := JS.Str "c.js"; fileObj := None |} ]
           {| cmd := "false"; dest := JS.Undefined; fileObj := None |}
           {| err := Some (JS.Error "Error" "Command failed: false");
              stdout := "out"; stderr := "oops" |}
           (JS.Error "Error" "Command failed: false")
           eq_refl eq_refl eq_refl eq_refl).
Defined.

(* ===================================================================== *)
(** * Properties of the statistics *)
(* ===================================================================== *)

Section GzipSize.
Context {Sys : System}.
Import JS.

(** The callback that records the number it is handed. *)
Definition report_size (x : float) : M unit := report [Num x].

(** [gzipSize] on a file that is read and compressed: the callback is handed
    the length of the compressed bytes, and the promise is fulfilled. *)
Lemma gzipSize_compressed (file src : string) (res : list byte) (s : state) :
  os_read file (machine s) = inr src ->
  os_gzip src (machine s) = inr res ->
  gzipSize file report_size s
  = Build_run (Returned (Fulfilled tt)) s
      [Read file; Gzip src; Call [Num (Number_of_nat (List.length res))]].
Proof.
  intros Hread Hgzip.
  unfold gzipSize, gzipfile, grunt_file_read, zlib_gzip, bind, with_machine, emit.
  cbn. rewrite Hread. cbn. rewrite Hgzip. reflexivity.
Qed.

(** [gzipSize] on a file that is read and whose compression fails: the
    callback is handed [NaN], and the promise is fulfilled. *)
Lemma gzipSize_not_compressed (file src : string) (e : error) (s : state) :
  os_read file (machine s) = inr src ->
  os_gzip src (machine s) = inl e ->
  gzipSize file report_size s
  = Build_run (Returned (Fulfilled tt)) s [Read file; Gzip src; Call [Num nan]].
Proof.
  intros Hread Hgzip.
  unfold gzipSize, gzipfile, grunt_file_read, zlib_gzip, bind, with_machine, emit.
  cbn. rewrite Hread. cbn. rewrite Hgzip. reflexivity.
Qed.

(** [gzipSize] on a file that cannot be read: the exception of the read
    leaves [gzipSize]; no promise is returned and the callback, whatever it
    is, is not called. *)
Lemma gzipSize_not_read (file : string) (e : error) (callback : float -> M unit)
    (s : state) :
  os_read file (machine s) = inl e ->
  gzipSize file callback s = Build_run (Thrown e) s [Read file].
Proof.
  intros Hread.
  unfold gzipSize, gzipfile, grunt_file_read, zlib_gzip, bind, with_machine, emit.
  cbn. rewrite Hread. reflexivity.
Qed.

End GzipSize.

Section GenerateStats.
Context {Sys : System}.
Import JS.

(** The callback of [generateStats] on a size that is falsy (zero, or
    [NaN]): one call of [fn], with [false], and nothing else. *)
Lemma generateStats_callback_falsy (filePath : string) (fn : list value -> M unit)
    (x : float) :
  ToBoolean (Num x) = false ->
  generateStats_callback filePath fn x = fn [Bool false].
Proof.
  intros Hx. unfold generateStats_callback. rewrite Hx. reflexivity.
Qed.

(** C5. Whenever [gzipSize] hands its callback a falsy size [x] (zero, or
    the [NaN] of a failed compression), after the events [t] of its own (the
    read and the compression), [generateStats] on the same file causes the
    same events [t] and then calls [fn] once, with [false]: it returns, and
    after the size nothing is read and nothing is logged. *)
Theorem generateStats_falsy_size (filePath : string) (s : state)
    (t : list event) (x : float) :
  events (gzipSize filePath report_size s) = (t ++ [Call [Num x]])%list ->
  ToBoolean (Num x) = false ->
  generateStats filePath report s
  = Build_run (Returned tt) s (t ++ [Call [Bool false]])%list.
Proof.
  intros Hsize Hx.
  destruct (os_read filePath (machine s)) as [e|src] eqn:Hread.
  - rewrite (gzipSize_not_read filePath e report_size s Hread) in Hsize.
    cbn [events] in Hsize.
    apply (app_inj_tail [] t) in Hsize. destruct Hsize as [_ Habs]. discriminate Habs.
  - destruct (os_gzip src (machine s)) as [e|res] eqn:Hgzip.
    + rewrite (gzipSize_not_compressed filePath src e s Hread Hgzip) in Hsize.
      cbn [events] in Hsize.
      apply (app_inj_tail [Read filePath; Gzip src] t) in Hsize.
      destruct Hsize as [<- _].
      unfold generateStats, gzipSize, gzipfile, grunt_file_read, zlib_gzip,
        bind, with_machine, emit.
      cbn. rewrite Hread. cbn. rewrite Hgzip. reflexivity.
    + rewrite (gzipSize_compressed filePath src res s Hread Hgzip) in Hsize.
      cbn [events] in Hsize.
      apply (app_inj_tail [Read filePath; Gzip src] t) in Hsize.
      destruct Hsize as [<- Hcall]. injection Hcall as Hlen.
      unfold generateStats, gzipSize, gzipfile, grunt_file_read, zlib_gzip,
        bind, with_machine, emit, promise_then, promise_otherwise, try_catch.
      cbn -[generateStats_callback Number_of_nat]. rewrite Hread.
      cbn -[generateStats_callback Number_of_nat]. rewrite Hgzip.
      cbn -[generateStats_callback Number_of_nat].
      rewrite Hlen, (generateStats_callback_falsy filePath report x Hx).
      reflexivity.
Qed.

End GenerateStats.

Lemma generateStats_falsy_size_witness :
  @generateStats three_files "big.js" report (start three_files tt [])
  = Build_run (Returned tt) (start three_files tt [])
      ([Read "big.js"; Gzip "bbbbbbbb"] ++ [Call [JS.Bool false]])%list.
Proof.
  exact (@generateStats_falsy_size three_files "big.js" (start three_files tt [])
           [Read "big.js"; Gzip "bbbbbbbb"] nan eq_refl eq_refl).
Defined.

(** C3, at a file that cannot be read.  On [three_files] the path
    [missing.js] holds no file: the read raises, the exception leaves
    [gzipSize], no promise is returned and the callback is never called, not
    even with [NaN].  (On a file that is read, the callback is handed the
    length of the compressed bytes, or [NaN] when the compression fails, and
    the promise is fulfilled: [gzipSize_compressed],
    [gzipSize_not_compressed].) *)
Theorem gzipSize_unreadable_file :
  let run := @gzipSize three_files "missing.js" report_size (start three_files tt []) in
  result run = Thrown (no_such_file "missing.js")
  /\ events run = [Read "missing.js"]
  /\ calls (events run) = [].
Proof.
  assert (H := @gzipSize_not_read three_files "missing.js" (no_such_file "missing.js")
                 report_size (start three_files tt []) eq_refl).
  cbv zeta. rewrite H. repeat split.
Qed.

(** C4, at a file that compression makes larger.  On [three_files] the file
    [a.js] holds one character and its gzip stream is 21 bytes long.  The
    figure [-(1 - 21/1) * 100] is [2000]; what [generateStats] prints is
    ["--2000.00%"], the minus sign it always writes before the two decimals
    of [(1 - 21/1) * 100], which are negative here. *)
Theorem generateStats_percent_of_larger_gzip :
  percent (JS.Number_of_nat 21) (JS.Number_of_nat 1) = "--2000.00%"
  /\ JS.Number_toFixed (- ((1 - 21 / 1) * 100))%float 2 = "2000.00"
  /\ events (@generateStats three_files "a.js" report (start three_files tt []))
     = [ Read "a.js"; Gzip "a"; Read "a.js";
         Log (JS.Str ("Compiled size:" ++ TAB ++ green "0.00" ++ " kb " ++ TAB
                      ++ "(" ++ green "1" ++ " bytes)"));
         Log (JS.Str ("GZipped size:" ++ TAB ++ green "0.02" ++ " kb " ++ TAB
                      ++ "(" ++ green "21" ++ " bytes) " ++ "--2000.00%"));
         Call [JS.Bool true] ].
Proof.
  repeat split; vm_compute; reflexivity.
Qed.

(* ===================================================================== *)
(** * The array only loses elements, from its front *)
(* ===================================================================== *)

Section Shrinking.
Context {Sys : System}.
Import JS.

(** A computation that leaves of the array a remainder of what it found. *)
Definition shrinking {A} (m : M A) : Prop :=
  forall s, remainder_of (commands (final (m s))) (commands s).

Lemma shrinking_ret {A} (a : A) : shrinking (ret a).
Proof. intro s. apply remainder_refl. Qed.

Lemma shrinking_throw {A} (e : error) : shrinking (@throw _ A e).
Proof. intro s. apply remainder_refl. Qed.

Lemma shrinking_out_of_fuel {A} : shrinking (@out_of_fuel _ A).
Proof. intro s. apply remainder_refl. Qed.

Lemma shrinking_emit (e : event) : shrinking (emit e).
Proof. intro s. apply remainder_refl. Qed.

Lemma shrinking_with_machine {A} (f : sys -> A) : shrinking (with_machine f).
Proof. intro s. apply remainder_refl. Qed.

Lemma shrinking_bind {A B} (m : M A) (k : A -> M B) :
  shrinking m -> (forall a, shrinking (k a)) -> shrinking (bind m k).
Proof.
  intros Hm Hk s. unfold bind. specialize (Hm s).
  destruct (m s) as [[a|e|] s1 t]; cbn [final] in *; try exact Hm.
  specialize (Hk a s1). destruct (k a s1) as [o s2 u]. cbn [after final] in *.
  apply (remainder_trans _ _ _ Hk Hm).
Qed.

Lemma shrinking_try_catch {A} (m : M A) (handler : error -> M A) :
  shrinking m -> (forall e, shrinking (handler e)) -> shrinking (try_catch m handler).
Proof.
  intros Hm Hh s. unfold try_catch. specialize (Hm s).
  destruct (m s) as [[a|e|] s1 t]; cbn [final] in *; try exact Hm.
  specialize (Hh e s1). destruct (handler e s1) as [o s2 u]. cbn [after final] in *.
  apply (remainder_trans _ _ _ Hh Hm).
Qed.

Lemma shrinking_Array_shift : shrinking Array_shift.
Proof.
  intro s. unfold Array_shift. destruct (commands s) as [|c rest] eqn:Hq; cbn [final commands].
  - rewrite Hq. apply remainder_refl.
  - apply remainder_tail.
Qed.

Lemma shrinking_report (args : list value) : shrinking (report args).
Proof. apply shrinking_emit. Qed.

Create HintDb shrink.
#[local] Hint Resolve shrinking_ret shrinking_throw shrinking_out_of_fuel shrinking_emit
  shrinking_with_machine shrinking_Array_shift shrinking_report : shrink.

(** The steps of a proof that a helper is [shrinking]: through [bind] and
    [try_catch], and by cases on what a conditional looks at. *)
Ltac shrink_step :=
  match goal with
  | |- shrinking (bind _ _) => apply shrinking_bind; [|intro]
  | |- shrinking (try_catch _ _) => apply shrinking_try_catch; [|intro]
  | |- shrinking (unless ?b _) => destruct b; cbn [unless]
  | |- shrinking (if ?b then _ else _) => destruct b
  | |- shrinking (match ?x with _ => _ end) => destruct x
  | |- shrinking _ => solve [auto with shrink]
  end.

Ltac shrink := repeat shrink_step.

Lemma shrinking_grunt_file_read (filepath : string) : shrinking (grunt_file_read filepath).
Proof. unfold grunt_file_read. shrink. Qed.

Lemma shrinking_zlib_gzip (src : string) : shrinking (zlib_gzip src).
Proof. unfold zlib_gzip. shrink. Qed.

Lemma shrinking_console_log (msg : value) : shrinking (console_log msg).
Proof. apply shrinking_emit. Qed.

Lemma shrinking_Get (v : value) (p : string) : shrinking (Get v p).
Proof. unfold Get. shrink. Qed.

#[local] Hint Resolve shrinking_grunt_file_read shrinking_zlib_gzip
  shrinking_console_log shrinking_Get : shrink.

Lemma shrinking_gzipSize (file : string) (callback : float -> M unit) :
  (forall x, shrinking (callback x)) -> shrinking (gzipSize file callback).
Proof.
  intro Hcb. unfold gzipSize, gzipfile, promise_then, promise_otherwise. shrink.
Qed.

Lemma shrinking_generateStats (filePath : string) (fn : list value -> M unit) :
  (forall args, shrinking (fn args)) -> shrinking (generateStats filePath fn).
Proof.
  intro Hfn. unfold generateStats. apply shrinking_bind; [|intro; apply shrinking_ret].
  apply shrinking_gzipSize. intro x.
  unfold generateStats_callback, log_info. shrink.
Qed.

(** A call of [runStats] on an array that is not empty leaves a remainder of
    the elements after the first: the first is shifted whatever follows. *)
Lemma runStats_from_past_head (fuel : nat) (options : StatsOptions)
    (cb : list value -> M unit) :
  (forall args, shrinking (cb args)) ->
  shrinking (runStats_from fuel options cb) ->
  forall (m : sys) (c : commandObj) (q : list commandObj),
  remainder_of
    (commands (final (runStats_from (S fuel) options cb
                        {| machine := m; commands := c :: q |}))) q.
Proof.
  intros Hcb Hrec m c q.
  cbn [runStats_from]. unfold bind at 1.
  cbn [Array_shift commands machine].
  match goal with
  | |- remainder_of (commands (final (after [] (?body ?s)))) _ =>
    rewrite after_nil; enough (Hbody : shrinking body) by exact (Hbody s)
  end.
  unfold log_info. shrink.
  apply shrinking_generateStats. intro args. exact Hrec.
Qed.

Lemma shrinking_runStats_from (options : StatsOptions) (cb : list value -> M unit) :
  (forall args, shrinking (cb args)) ->
  forall fuel, shrinking (runStats_from fuel options cb).
Proof.
  intros Hcb fuel. induction fuel as [|fuel IH].
  - apply shrinking_out_of_fuel.
  - intros [m [|c q]].
    + cbn. rewrite after_nil. apply (Hcb [Bool true]).
    + apply (remainder_trans _ q).
      * apply (runStats_from_past_head fuel options cb Hcb IH).
      * apply remainder_tail.
Qed.

(** C9. On an array that is not empty, [runStats] shifts the first element
    before it looks at [options.compile]: whatever [options] is, what is left
    of the array at the end is a remainder of the elements after the first;
    and with [compile] false exactly those elements are left, while the only
    event of the run is the callback called with [true]. *)
Theorem runStats_shifts_first (options : StatsOptions) (m : sys)
    (c : commandObj) (q : list commandObj) :
  remainder_of
    (commands (final (runStats options report {| machine := m; commands := c :: q |}))) q
  /\ runStats {| compile := false |} report {| machine := m; commands := c :: q |}
     = Build_run (Returned tt) {| machine := m; commands := q |} [Call [Bool true]].
Proof.
  split; [|reflexivity].
  unfold runStats. cbn [commands].
  apply runStats_from_past_head.
  - exact shrinking_report.
  - apply shrinking_runStats_from. exact shrinking_report.
Qed.

End Shrinking.

Section Stall.
Context {Sys : System}.
Import JS.

(** [runStats] with [compile] true, on an array whose first descriptor has
    an output file with a falsy [dest]: the descriptor is shifted and the
    call returns; nothing else happens. *)
Lemma runStats_falsy_dest (m : sys) (c : commandObj) (f : FileObj.t)
    (q : list commandObj) (cb : list value -> M unit) :
  fileObj c = Some f ->
  ToBoolean (FileObj.dest f) = false ->
  runStats {| compile := true |} cb {| machine := m; commands := c :: q |}
  = Build_run (Returned tt) {| machine := m; commands := q |} [].
Proof.
  intros Hfile Hdest.
  unfold runStats. cbn [commands List.length runStats_from compile].
  unfold bind at 1. cbn [Array_shift commands machine].
  rewrite Hfile. unfold bind, ret. cbn [after app]. rewrite Hdest.
  cbn [after app]. rewrite Hdest. reflexivity.
Qed.

(** C2. With [compile] true, on an array whose first descriptor has an
    output file with an empty or an absent [dest], [runStats] shifts the
    descriptor and returns.  The run has no event: no file is read, nothing
    is compressed or logged, the callback is not called, and no call of
    [runStats] on the rest of the array is made, which is left as it is. *)
Theorem runStats_empty_dest_stalls (m : sys) (c : commandObj) (f : FileObj.t)
    (q : list commandObj) :
  fileObj c = Some f ->
  FileObj.dest f = Str "" \/ FileObj.dest f = Undefined ->
  let run := runStats {| compile := true |} report
               {| machine := m; commands := c :: q |} in
  run = Build_run (Returned tt) {| machine := m; commands := q |} []
  /\ calls (events run) = []
  /\ filter stats_event (events run) = [].
Proof.
  intros Hfile Hdest run.
  assert (Hrun : run = Build_run (Returned tt) {| machine := m; commands := q |} []).
  { apply (runStats_falsy_dest m c f q report Hfile).
    destruct Hdest as [-> | ->]; reflexivity. }
  rewrite Hrun. repeat split.
Qed.

(** C10. [fileExists] looks the path up once and returns, never raising.
    It returns [true] exactly when the lookup gives a record that is a
    regular file or a symbolic link; so it returns [false] for a directory,
    and [false] when the lookup raises. *)
Theorem fileExists_regular_or_link (filePath : string) (s : state) :
  (exists b, fileExists filePath s = Build_run (Returned b) s [Lstat filePath])
  /\ (result (fileExists filePath s) = Returned true
      <-> exists st, os_lstat filePath (machine s) = inr st
                     /\ (isFile st = true \/ isSymbolicLink st = true))
  /\ (forall st, os_lstat filePath (machine s) = inr st -> isDirectory st = true ->
      result (fileExists filePath s) = Returned false)
  /\ (forall e, os_lstat filePath (machine s) = inl e ->
      result (fileExists filePath s) = Returned false).
Proof.
  unfold fileExists, try_catch, fs_lstatSync, bind, emit, with_machine.
  cbn [after app].
  destruct (os_lstat filePath (machine s)) as [e|st] eqn:Hlstat; cbn [after app throw ret].
  - split; [|split; [|split]].
    + exists false. reflexivity.
    + split; [intro H; discriminate H|].
      intros (st & Hst & _). discriminate Hst.
    + intros st Hst. discriminate Hst.
    + intros e' _. reflexivity.
  - destruct (isFile st || isSymbolicLink st) eqn:Hkind; cbn [after app throw ret result];
      (split; [|split; [|split]]).
    + exists true. reflexivity.
    + split; [|reflexivity].
      intros _. exists st. split; [reflexivity|]. apply orb_true_iff. exact Hkind.
    + intros st' Hst' Hdir. injection Hst' as <-. exfalso.
      unfold isFile, isSymbolicLink, isDirectory, checkModeProperty in *.
      apply Z.eqb_eq in Hdir. rewrite Hdir in Hkind. discriminate Hkind.
    + intros e He. discriminate He.
    + exists false. reflexivity.
    + split; [intro H; discriminate H|].
      intros (st' & Hst' & Hk). injection Hst' as <-.
      apply orb_true_iff in Hk. rewrite Hk in Hkind. discriminate Hkind.
    + intros st' _ _. reflexivity.
    + intros e He. discriminate He.
Qed.

End Stall.

Lemma runStats_empty_dest_stalls_witness :
  let run := @runStats shell_only {| compile := true |} report
               (start shell_only tt
                  [ {| cmd := "cc"; dest := JS.Str "a"; fileObj := Some (FileObj.Build (JS.Str "")) |};
                    {| cmd := "ld"; dest := JS.Str "b"; fileObj := Some (FileObj.Build (JS.Str "b.js")) |} ]) in
  run = Build_run (Returned tt)
          (start shell_only tt
             [ {| cmd := "ld"; dest := JS.Str "b"; fileObj := Some (FileObj.Build (JS.Str "b.js")) |} ]) []
  /\ calls (events run) = []
  /\ filter stats_event (events run) = [].
Proof.
  exact (@runStats_empty_dest_stalls shell_only tt
           {| cmd := "cc"; dest := JS.Str "a"; fileObj := Some (FileObj.Build (JS.Str "")) |}
           (FileObj.Build (JS.Str ""))
           [ {| cmd := "ld"; dest := JS.Str "b"; fileObj := Some (FileObj.Build (JS.Str "b.js")) |} ]
           eq_refl (or_introl eq_refl)).
Defined.

(** [fileExists] on the paths of [three_files]. *)
Example fileExists_three_files :
  map (fun path => result (@fileExists three_files path (start three_files tt [])))
      ["a.js"; "link"; "dir"; "missing.js"]
  = [Returned true; Returned true; Returned false; Returned false].
Proof. reflexivity. Qed.

(* ===================================================================== *)
(** * Further properties *)
(* ===================================================================== *)

Section Further.
Context {Sys : System}.
Import JS.

(** When [(1 - gzipSize / compiledSize) * 100] is a positive number, the
    figure of [generateStats] is its opposite with two decimals, then [%]. *)
Lemma percent_of_positive (gzipSize compiledSize : float) (m : positive) (e : Z) :
  Prim2SF ((1 - gzipSize / compiledSize) * 100)%float = S754_finite false m e ->
  percent gzipSize compiledSize
  = Number_toFixed (- ((1 - gzipSize / compiledSize) * 100))%float 2 ++ "%".
Proof.
  intro Hv. unfold percent, Number_toFixed.
  rewrite opp_spec, Hv. cbn [SFopp negb].
  destruct (Qle_bool (pow10 21) (exact m e)); reflexivity.
Qed.

(** X1. On an array whose commands all succeed, [runCommands] hands each of them
    to the shell, in the order of the array, empties the array, and calls the
    callback once, with [true]. *)
Theorem runCommands_all_succeed (optSilent : bool) (m m' : sys) (q : list commandObj) :
  succeed_all m q = Some m' ->
  let run := runCommands report optSilent {| machine := m; commands := q |} in
  result run = Returned tt
  /\ executed (events run) = map cmd q
  /\ calls (events run) = [[Bool true]]
  /\ final run = {| machine := m'; commands := [] |}.
Proof.
  intros Hq run.
  destruct (runCommands_from_prefix report optSilent q 1 m m' [] Hq)
    as (t & Ht & Hc & Hrun).
  unfold run, runCommands. cbn [commands].
  replace (S (List.length q)) with (List.length q + 1)%nat by lia.
  rewrite app_nil_r in Hrun. rewrite Hrun. cbn.
  rewrite executed_app, calls_app, Ht, Hc. cbn. rewrite app_nil_r.
  repeat split.
Qed.

(** X2. [gzipSize] on a file that can be read: the callback is called once, with
    the length of the compressed bytes, or with [NaN] when the compression
    fails; either way the promise that is returned is fulfilled. *)
Theorem gzipSize_of_readable_file (file src : string) (s : state) :
  os_read file (machine s) = inr src ->
  gzipSize file report_size s
  = Build_run (Returned (Fulfilled tt)) s
      [Read file; Gzip src;
       Call [Num match os_gzip src (machine s) with
                 | inr res => Number_of_nat (List.length res)
                 | inl _ => nan
                 end]].
Proof.
  intro Hread.
  destruct (os_gzip src (machine s)) as [e|res] eqn:Hgzip.
  - apply (gzipSize_not_compressed file src e s Hread Hgzip).
  - apply (gzipSize_compressed file src res s Hread Hgzip).
Qed.

End Further.

Lemma runCommands_all_succeed_witness :
  let run := @runCommands shell_only report true
               (start shell_only tt
                  [ {| cmd := "true"; dest := JS.Str "a.js"; fileObj := None |};
                    {| cmd := "echo"; dest := JS.Null; fileObj := None |} ]) in
  result run = Returned tt
  /\ executed (events run) = ["true"; "echo"]
  /\ calls (events run) = [[JS.Bool true]]
  /\ final run = start shell_only tt [].
Proof.
  exact (@runCommands_all_succeed shell_only true tt tt
           [ {| cmd := "true"; dest := JS.Str "a.js"; fileObj := None |};
             {| cmd := "echo"; dest := JS.Null; fileObj := None |} ]
           eq_refl).
Defined.

Lemma gzipSize_of_readable_file_witness :
  @gzipSize three_files "a.js" report_size (start three_files tt [])
  = Build_run (Returned (Fulfilled tt)) (start three_files tt [])
      [Read "a.js"; Gzip "a"; Call [JS.Num 21]].
Proof.
  exact (@gzipSize_of_readable_file three_files "a.js" "a" (start three_files tt []) eq_refl).
Defined.

(* ===================================================================== *)
(** * The fuel suffices *)
(* ===================================================================== *)

Section Fuel.
Context {Sys : System}.
Import JS.

(** A computation that, from an array of at most [n] elements, does not run
    out of fuel and leaves at most [n] elements. *)
Definition finishing {A} (n : nat) (m : M A) : Prop :=
  forall s, (List.length (commands s) <= n)%nat ->
    result (m s) <> Unfinished /\ (List.length (commands (final (m s))) <= n)%nat.

Lemma finishing_ret {A} (n : nat) (a : A) : finishing n (ret a).
Proof. intros s Hs. split; [discriminate|exact Hs]. Qed.

Lemma finishing_throw {A} (n : nat) (e : error) : finishing n (@throw _ A e).
Proof. intros s Hs. split; [discriminate|exact Hs]. Qed.

Lemma finishing_emit (n : nat) (e : event) : finishing n (emit e).
Proof. intros s Hs. split; [discriminate|exact Hs]. Qed.

Lemma finishing_with_machine {A} (n : nat) (f : sys -> A) : finishing n (with_machine f).
Proof. intros s Hs. split; [discriminate|exact Hs]. Qed.

Lemma finishing_exec (n : nat) (command : string) : finishing n (child_process_exec command).
Proof.
  intros s Hs. unfold child_process_exec.
  destruct (os_exec command (machine s)) as [r m]. split; [discriminate|exact Hs].
Qed.

Lemma finishing_bind {A B} (n : nat) (m : M A) (k : A -> M B) :
  finishing n m -> (forall a, finishing n (k a)) -> finishing n (bind m k).
Proof.
  intros Hm Hk s Hs. unfold bind. specialize (Hm s Hs).
  destruct (m s) as [[a|e|] s1 t]; cbn [result final] in *.
  - specialize (Hk a s1 (proj2 Hm)). destruct (k a s1) as [o s2 u]. exact Hk.
  - split; [discriminate|exact (proj2 Hm)].
  - exfalso. exact (proj1 Hm eq_refl).
Qed.

Lemma finishing_try_catch {A} (n : nat) (m : M A) (handler : error -> M A) :
  finishing n m -> (forall e, finishing n (handler e)) -> finishing n (try_catch m handler).
Proof.
  intros Hm Hh s Hs. unfold try_catch. specialize (Hm s Hs).
  destruct (m s) as [[a|e|] s1 t]; cbn [result final] in *; try exact Hm.
  specialize (Hh e s1 (proj2 Hm)). destruct (handler e s1) as [o s2 u]. exact Hh.
Qed.

Create HintDb finish.
#[local] Hint Resolve finishing_ret finishing_throw finishing_emit
  finishing_with_machine finishing_exec : finish.

Ltac finish_step :=
  match goal with
  | |- finishing _ (bind _ _) => apply finishing_bind; [|intro]
  | |- finishing _ (try_catch _ _) => apply finishing_try_catch; [|intro]
  | |- finishing _ (unless ?b _) => destruct b; cbn [unless]
  | |- finishing _ (if ?b then _ else _) => destruct b
  | |- finishing _ (match ?x with _ => _ end) => destruct x
  | |- finishing _ _ => solve [auto with finish]
  end.

Ltac finish := repeat finish_step.

(** A call on an array that is not empty, when the calls it makes finish
    from the shorter array. *)
Lemma runCommands_from_finishing (optSilent : bool) (n : nat) :
  finishing n (runCommands_from (S n) report optSilent).
Proof.
  induction n as [|n IH]; intros [m [|c q]] Hs; cbn [commands List.length] in Hs.
  - cbn. split; [discriminate|exact Hs].
  - lia.
  - cbn. split; [discriminate|exact Hs].
  - remember (S n) as fuel eqn:Hfuel.
    remember (runCommands_from (S fuel) report optSilent {| machine := m; commands := c :: q |})
      as r eqn:Hr.
    cbn [runCommands_from] in Hr. unfold bind at 1 in Hr.
    cbn [Array_shift commands machine] in Hr. rewrite after_nil in Hr. subst r.
    match goal with
    | |- result (?body ?s) <> _ /\ _ =>
      enough (Hbody : finishing n body)
        by (destruct (Hbody s) as [Hr Hl]; [cbn; lia|split; [exact Hr|lia]])
    end.
    unfold executeCommand, log_info, log_error, console_log, report, Get. finish.
Qed.

Lemma finishing_generateStats (n : nat) (filePath : string) (fn : list value -> M unit) :
  (forall args, finishing n (fn args)) -> finishing n (generateStats filePath fn).
Proof.
  intro Hfn.
  unfold generateStats, gzipSize, gzipfile, promise_then, promise_otherwise,
    generateStats_callback, grunt_file_read, zlib_gzip, log_info, console_log.
  finish.
Qed.

Lemma runStats_from_finishing (options : StatsOptions) (n : nat) :
  finishing n (runStats_from (S n) options report).
Proof.
  induction n as [|n IH]; intros [m [|c q]] Hs; cbn [commands List.length] in Hs.
  - cbn. split; [discriminate|exact Hs].
  - lia.
  - cbn. split; [discriminate|exact Hs].
  - remember (S n) as fuel eqn:Hfuel.
    remember (runStats_from (S fuel) options report {| machine := m; commands := c :: q |})
      as r eqn:Hr.
    cbn [runStats_from] in Hr. unfold bind at 1 in Hr.
    cbn [Array_shift commands machine] in Hr. rewrite after_nil in Hr. subst r.
    match goal with
    | |- result (?body ?s) <> _ /\ _ =>
      enough (Hbody : finishing n body)
        by (destruct (Hbody s) as [Hr Hl]; [cbn; lia|split; [exact Hr|lia]])
    end.
    unfold log_info, console_log, report, Get. finish.
    apply finishing_generateStats. intro args. exact IH.
Qed.

(** [runCommands] and [runStats] return or raise on every array: the fuel
    they start with is enough. *)
Lemma runCommands_finishes (optSilent : bool) (s : state) :
  result (runCommands report optSilent s) <> Unfinished.
Proof.
  unfold runCommands.
  apply (runCommands_from_finishing optSilent (List.length (commands s)) s). lia.
Qed.

Lemma runStats_finishes (options : StatsOptions) (s : state) :
  result (runStats options report s) <> Unfinished.
Proof.
  unfold runStats.
  apply (runStats_from_finishing options (List.length (commands s)) s). lia.
Qed.

End Fuel.

(* ===================================================================== *)
(** * [helpers.makeParam] *)
(* ===================================================================== *)

(** What [makeParam] is handed as [param]: [null], a string, or an array of
    strings. *)
Inductive param : Set :=
| ParamNull
| ParamStr (s : string)
| ParamArr (items : list string).

(** [String(v)]: an array prints as its elements between commas. *)
Definition String_of (v : param) : string :=
  match v with
  | ParamNull => "null"
  | ParamStr s => s
  | ParamArr items => String.concat "," items
  end.

(** A call that raises ends what follows. *)
Definition and_then {A B} (r : JS.error + A) (k : A -> JS.error + B) : JS.error + B :=
  match r with
  | inl e => inl e
  | inr a => k a
  end.

Section MakeParam.

(** [grunt.file.expand(patterns)]: the paths that match, or an exception. *)
Variable file_expand : param -> JS.error + list string.

(** The loop of [makeParam] over an array: each element is expanded on its
    own, in order, and its matches pushed as one array. *)
Fixpoint expand_each (items : list string) : JS.error + list (list string) :=
  match items with
  | [] => inr []
  | x :: items =>
    and_then (file_expand (ParamStr x)) (fun matches =>
    and_then (expand_each items) (fun rest => inr (matches :: rest)))
  end.

Definition makeParam (p : param) (directive : string) (optNoSpace optParsePath : bool)
    : JS.error + string :=
  let sp := if optNoSpace then "" else " " in
  and_then (if optParsePath
            then and_then (file_expand p) (fun matches => inr (ParamArr matches))
            else inr p)
    (fun paramValue =>
       match p with
       | ParamArr items =>
         and_then (if optParsePath
                   then and_then (expand_each items)
                          (fun each => inr (map (fun a => String_of (ParamArr a)) each))
                   else inr items)
           (fun paramValue =>
              inr (" " ++ directive ++ sp
                   ++ String.concat (" " ++ directive ++ sp) paramValue))
       | ParamNull => inr (" " ++ directive)
       | ParamStr _ => inr (" " ++ directive ++ sp ++ String_of paramValue)
       end).

Lemma append_assoc (a b c : string) : (a ++ b) ++ c = a ++ (b ++ c).
Proof. induction a as [|x a IH]; simpl; [reflexivity|]. rewrite IH. reflexivity. Qed.

Lemma prefix_append (a b : string) : prefix a (a ++ b) = true.
Proof.
  induction a as [|x a IH]; simpl.
  - destruct b; reflexivity.
  - destruct (ascii_dec x x) as [_|Hneq]; [exact IH|contradiction Hneq; reflexivity].
Qed.



(** The parameter of one value, as [makeParam] builds it. *)
Definition one_param (directive : string) (optNoSpace : bool) (x : string) : string :=
  " " ++ directive ++ (if optNoSpace then "" else " ") ++ x.

Lemma join_params (directive : string) (optNoSpace : bool) (x : string)
    (items : list string) :
  " " ++ directive ++ (if optNoSpace then "" else " ")
  ++ String.concat (" " ++ directive ++ (if optNoSpace then "" else " ")) (x :: items)
  = String.concat "" (map (one_param directive optNoSpace) (x :: items)).
Proof.
  revert x. induction items as [|y items IH]; intro x.
  - reflexivity.
  - change (String.concat ?sep (x :: y :: items))
      with (x ++ sep ++ String.concat sep (y :: items)).
    change (map ?f (x :: y :: items)) with (f x :: map f (y :: items)).
    change (String.concat "" (?a :: map ?f (y :: items)))
      with (a ++ "" ++ String.concat "" (map f (y :: items))).
    rewrite <- (IH y). unfold one_param. cbn [append].
    rewrite ?append_assoc. cbn [append]. rewrite ?append_assoc. reflexivity.
Qed.

(** X3. Without path parsing, the parameter of an array that is not empty is
    the parameters of its elements, one after the other; the parameter of a
    string is that of a one-element array. *)
Theorem makeParam_of_array (directive : string) (optNoSpace : bool)
    (items : list string) :
  items <> [] ->
  makeParam (ParamArr items) directive optNoSpace false
  = inr (String.concat "" (map (one_param directive optNoSpace) items))
  /\ forall x, makeParam (ParamStr x) directive optNoSpace false
               = makeParam (ParamArr [x]) directive optNoSpace false.
Proof.
  intro Hitems. split.
  - destruct items as [|x items]; [contradiction Hitems; reflexivity|].
    unfold makeParam, and_then. f_equal. apply join_params.
  - intro x. reflexivity.
Qed.

(** X4. With path parsing, when every pattern of the array matches exactly
    one path, the parameter is the one built without path parsing from the
    matched paths. *)
Theorem makeParam_of_single_matches (directive : string) (optNoSpace : bool)
    (items all : list string) (path_of : string -> string) :
  file_expand (ParamArr items) = inr all ->
  (forall x, In x items -> file_expand (ParamStr x) = inr [path_of x]) ->
  makeParam (ParamArr items) directive optNoSpace true
  = makeParam (ParamArr (map path_of items)) directive optNoSpace false.
Proof.
  intros Hall Heach.
  assert (Hloop : expand_each items = inr (map (fun x => [path_of x]) items)).
  { induction items as [|x items IH] in Heach |- *; [reflexivity|].
    cbn [expand_each]. rewrite (Heach x (or_introl eq_refl)). cbn [and_then].
    rewrite IH; [reflexivity|]. intros y Hy. apply Heach. right. exact Hy. }
  unfold makeParam. rewrite Hall. cbn [and_then]. rewrite Hloop. cbn [and_then].
  rewrite map_map. reflexivity.
Qed.


End MakeParam.

(** A pattern language of two patterns, each with one match. *)
Definition two_globs (p : param) : JS.error + list string :=
  match p with
  | ParamNull => inl (JS.TypeError "Cannot call method 'indexOf' of null")
  | ParamStr s =>
    if String.eqb s "src/*.js" then inr ["src/a.js"]
    else if String.eqb s "lib/*.js" then inr ["lib/b.js"]
    else inr []
  | ParamArr _ => inr ["src/a.js"; "lib/b.js"]
  end.

Lemma makeParam_of_array_witness :
  makeParam two_globs (ParamArr ["a.js"; "b.js"]) "--js" false false
  = inr " --js a.js --js b.js"
  /\ forall x, makeParam two_globs (ParamStr x) "--js" false false
               = makeParam two_globs (ParamArr [x]) "--js" false false.
Proof.
  exact (makeParam_of_array two_globs "--js" false ["a.js"; "b.js"]
           ltac:(discriminate)).
Defined.

Lemma makeParam_of_single_matches_witness :
  makeParam two_globs (ParamArr ["src/*.js"; "lib/*.js"]) "--js=" true true
  = makeParam two_globs (ParamArr ["src/a.js"; "lib/b.js"]) "--js=" true false.
Proof.
  exact (makeParam_of_single_matches two_globs "--js=" true
           ["src/*.js"; "lib/*.js"] ["src/a.js"; "lib/b.js"]
           (fun x => if String.eqb x "src/*.js" then "src/a.js" else "lib/b.js")
           eq_refl
           ltac:(intros x [<-|[<-|[]]]; reflexivity)).
Defined.


(* ===================================================================== *)
(** * [helpers.getStat], [helpers.executeCommand], and callbacks that raise *)
(* ===================================================================== *)

(** The state of a deferred of [when] whose reason can be any value: not yet
    settled, resolved, or rejected. *)
Inductive settlement (A : Type) : Type :=
| Pending
| Resolved (a : A)
| RejectedWith (reason : JS.value).
Arguments Pending {A}.
Arguments Resolved {A} a.
Arguments RejectedWith {A} reason.

Section GetStat.
Context {Sys : System}.
Import JS.

(** [helpers.getStat]: [fs.lstat] with a callback that settles a deferred. *)
Definition getStat (filename : string) : M (settlement Stats) :=
  emit (Lstat filename) ;;
  r <- with_machine (os_lstat filename) ;;
  match r with
  | inl e => ret (RejectedWith (Str ("lstat failed:" ++ ToString (Err e))))
  | inr stat => ret (Resolved stat)
  end.

(** A callback that records the number it is handed, and then raises. *)
Definition report_and_raise (e : error) (x : float) : M unit :=
  report [Num x] ;; throw e.

(** X6. [getStat] looks the path up once and never raises: its promise is
    resolved with the record when the lookup succeeds, and rejected when it
    fails, with a string that starts with ["lstat failed:"], not with the
    error itself. *)
Theorem getStat_settles (filename : string) (s : state) :
  exists p,
    getStat filename s = Build_run (Returned p) s [Lstat filename]
    /\ match os_lstat filename (machine s) with
       | inr stat => p = Resolved stat
       | inl e => exists text, p = RejectedWith (Str text)
                               /\ prefix "lstat failed:" text = true
       end.
Proof.
  unfold getStat, bind, emit, with_machine. cbn [after app].
  destruct (os_lstat filename (machine s)) as [e|stat]; cbn [after app ret].
  - eexists. split; [reflexivity|]. eexists. split; [reflexivity|].
    apply prefix_append.
  - eexists. split; reflexivity.
Qed.

(** X7. [fileExists] and [getStat] agree: [fileExists] returns [true]
    exactly when [getStat] resolves with the record of a regular file or of
    a symbolic link, and [false] whenever [getStat] rejects. *)
Theorem fileExists_agrees_with_getStat (path : string) (s : state) :
  (result (fileExists path s) = Returned true
   <-> exists stat, result (getStat path s) = Returned (Resolved stat)
                    /\ (isFile stat || isSymbolicLink stat) = true)
  /\ (forall reason, result (getStat path s) = Returned (RejectedWith reason) ->
      result (fileExists path s) = Returned false).
Proof.
  unfold fileExists, getStat, try_catch, fs_lstatSync, bind, emit, with_machine.
  cbn [after app].
  destruct (os_lstat path (machine s)) as [e|stat]; cbn [after app throw ret result].
  - split.
    + split; [intro H; discriminate H|]. intros (st & Hst & _). discriminate Hst.
    + intros reason _. reflexivity.
  - destruct (isFile stat || isSymbolicLink stat) eqn:Hkind;
      cbn [after app throw ret result]; split.
    + split; [|reflexivity]. intros _. exists stat. split; [reflexivity|exact Hkind].
    + intros reason H. discriminate H.
    + split; [intro H; discriminate H|].
      intros (st & Hst & Hk). injection Hst as <-. rewrite Hk in Hkind. discriminate Hkind.
    + intros reason H. discriminate H.
Qed.

(** X8. When the callback raises on the size it is handed, [gzipSize] calls
    it a second time, with [NaN]; when it raises again, the promise that is
    returned is rejected with that exception, and nothing is raised to the
    caller. *)
Theorem gzipSize_calls_back_twice (file src : string) (res : list byte)
    (e : error) (s : state) :
  os_read file (machine s) = inr src ->
  os_gzip src (machine s) = inr res ->
  gzipSize file (report_and_raise e) s
  = Build_run (Returned (Rejected e)) s
      [Read file; Gzip src; Call [Num (Number_of_nat (List.length res))];
       Call [Num nan]].
Proof.
  intros Hread Hgzip.
  unfold gzipSize, gzipfile, grunt_file_read, zlib_gzip, bind, with_machine, emit.
  cbn -[Number_of_nat]. rewrite Hread. cbn -[Number_of_nat]. rewrite Hgzip. reflexivity.
Qed.

(** X10. [executeCommand] runs the command once and calls [done] once:
    with [true] alone when the command ends without [err], with [false], the
    [stderr] and the [stdout] otherwise.  The [err] is logged even when
    [optSilent] is set, which silences a run that succeeds. *)
Theorem executeCommand_calls_done_once (command : string) (optSilent : bool) (s : state) :
  let out := fst (os_exec command (machine s)) in
  let run := executeCommand command report optSilent s in
  result run = Returned tt
  /\ final run = {| machine := snd (os_exec command (machine s)); commands := commands s |}
  /\ executed (events run) = [command]
  /\ calls (events run)
     = [match err out with
        | None => [Bool true]
        | Some _ => [Bool false; Str (stderr out); Str (stdout out)]
        end]
  /\ (forall e, err out = Some e -> In (Log (Err e)) (events run))
  /\ (err out = None -> optSilent = true ->
      events run = [Exec command; Call [Bool true]]).
Proof.
  cbv zeta.
  unfold executeCommand, bind, child_process_exec, log_info, log_error, console_log,
    report, emit, unless, ret.
  destruct optSilent; cbn [after app];
    destruct (os_exec command (machine s)) as [out m];
    cbn [fst snd]; destruct (err out) as [e|] eqn:Herr;
    cbn [after app result final events executed calls];
    (split; [reflexivity|split; [reflexivity|split; [reflexivity|split;
       [reflexivity|split]]]]).
  all: try (intros e' He'; try discriminate He'; injection He' as <-;
            cbn [In]; auto 8; fail).
  all: intros He Hs; try discriminate He; try discriminate Hs; reflexivity.
Qed.

End GetStat.

Lemma gzipSize_calls_back_twice_witness :
  @gzipSize three_files "a.js" (report_and_raise (JS.Error "Error" "no"))
    (start three_files tt [])
  = Build_run (Returned (Rejected (JS.Error "Error" "no"))) (start three_files tt [])
      [Read "a.js"; Gzip "a"; Call [JS.Num 21]; Call [JS.Num nan]].
Proof.
  exact (@gzipSize_calls_back_twice three_files "a.js" "a" gzip_of_a
           (JS.Error "Error" "no") (start three_files tt []) eq_refl eq_refl).
Defined.

(* ===================================================================== *)
(** * The statistics of a whole array *)
(* ===================================================================== *)

(** The sources handed to [gzip], in the order they were. *)
Fixpoint compressed (t : list event) : list string :=
  match t with
  | [] => []
  | Gzip src :: t => src :: compressed t
  | _ :: t => compressed t
  end.

Lemma compressed_app (t u : list event) :
  compressed (t ++ u) = (compressed t ++ compressed u)%list.
Proof.
  induction t as [|e t IH]; simpl; [reflexivity|].
  destruct e; simpl; rewrite IH; reflexivity.
Qed.

Section WholeArray.
Context {Sys : System}.
Import JS.

(** The size [gzipSize] hands its callback for a source: the length of the
    compressed bytes, or [NaN]. *)
Definition size_or_nan (src : string) (m : sys) : float :=
  match os_gzip src m with
  | inr res => Number_of_nat (List.length res)
  | inl _ => nan
  end.

(** The contents [runStats] computes the statistics of, for a descriptor:
    its output file has a [dest] that passes the guard [dest && dest.length]
    and names a file that can be read. *)
Definition stat_source (m : sys) (c : commandObj) : option string :=
  match fileObj c with
  | Some f =>
    match FileObj.dest f with
    | Str p =>
      if ToBoolean (Str p) && ToBoolean (Num (Number_of_nat (String.length p)))
      then match os_read p m with
           | inr src => Some src
           | inl _ => None
           end
      else None
    | _ => None
    end
  | None => None
  end.

Fixpoint stat_sources (m : sys) (q : list commandObj) : option (list string) :=
  match q with
  | [] => Some []
  | c :: q =>
    match stat_source m c, stat_sources m q with
    | Some src, Some rest => Some (src :: rest)
    | _, _ => None
    end
  end.

(** [gzipSize] on a file that can be read, with a callback that returns. *)
Lemma gzipSize_returning (file src : string) (callback : float -> M unit)
    (s s' : state) (tcb : float -> list event) :
  os_read file (machine s) = inr src ->
  (forall x, callback x s = Build_run (Returned tt) s' (tcb x)) ->
  gzipSize file callback s
  = Build_run (Returned (Fulfilled tt)) s'
      ([Read file; Gzip src] ++ tcb (size_or_nan src (machine s)))%list.
Proof.
  intros Hread Hcb.
  unfold gzipSize, gzipfile, grunt_file_read, zlib_gzip, with_machine, emit,
    size_or_nan, promise_then, promise_otherwise, try_catch, bind.
  cbn -[Number_of_nat]. rewrite Hread. cbn -[Number_of_nat].
  destruct (os_gzip src (machine s)) as [e|res]; cbn -[Number_of_nat];
    rewrite Hcb; cbn -[Number_of_nat]; rewrite ?app_nil_r; reflexivity.
Qed.

(** What the callback of [generateStats] does before it calls [fn]. *)
Definition before_fn (filePath : string) (x : float) (s : state) : list event :=
  events (generateStats_callback filePath (fun _ => ret tt) x s).

(** The callback of [generateStats], with an [fn] that returns: [fn] is
    called last, with whether the size is truthy; before it come only a read
    and log lines. *)
Lemma generateStats_callback_returning (filePath src : string)
    (fn : list value -> M unit) (s s' : state) (tfn : list value -> list event)
    (x : float) :
  os_read filePath (machine s) = inr src ->
  (forall args, fn args s = Build_run (Returned tt) s' (tfn args)) ->
  calls (before_fn filePath x s) = []
  /\ executed (before_fn filePath x s) = []
  /\ compressed (before_fn filePath x s) = []
  /\ generateStats_callback filePath fn x s
     = Build_run (Returned tt) s'
         (before_fn filePath x s ++ tfn [Bool (ToBoolean (Num x))])%list.
Proof.
  intros Hread Hfn. unfold before_fn, generateStats_callback.
  destruct (ToBoolean (Num x)); cbn [negb].
  - unfold bind, grunt_file_read, with_machine, emit, log_info, console_log.
    cbn -[Number_toFixed Number_toString Number_of_nat percent green].
    rewrite Hread. cbn -[Number_toFixed Number_toString Number_of_nat percent green].
    rewrite Hfn. repeat split.
  - rewrite Hfn. repeat split.
Qed.

(** [generateStats] on a file that can be read, with an [fn] that returns. *)
Lemma generateStats_returning (filePath src : string) (fn : list value -> M unit)
    (s s' : state) (tfn : list value -> list event) :
  os_read filePath (machine s) = inr src ->
  (forall args, fn args s = Build_run (Returned tt) s' (tfn args)) ->
  exists mid, calls mid = [] /\ executed mid = [] /\ compressed mid = [src] /\
    generateStats filePath fn s
    = Build_run (Returned tt) s'
        (mid ++ tfn [Bool (ToBoolean (Num (size_or_nan src (machine s))))])%list.
Proof.
  intros Hread Hfn.
  set (x := size_or_nan src (machine s)).
  destruct (generateStats_callback_returning filePath src fn s s' tfn x Hread Hfn)
    as (Hc & He & Hz & _).
  exists ([Read filePath; Gzip src] ++ before_fn filePath x s)%list.
  split; [|split; [|split]].
  - cbn. exact Hc.
  - cbn. exact He.
  - cbn. rewrite Hz. reflexivity.
  - unfold generateStats, bind.
    rewrite (gzipSize_returning filePath src _ s s'
               (fun y => before_fn filePath y s ++ tfn [Bool (ToBoolean (Num y))])%list
               Hread).
    + cbn [after ret app]. rewrite ?app_nil_r. reflexivity.
    + intro y.
      apply (generateStats_callback_returning filePath src fn s s' tfn y Hread Hfn).
Qed.

(** X9. [generateStats] on a file that cannot be read raises, without a
    call of [fn].  On a file that can be read it returns, leaves the state
    as it was, and calls [fn] exactly once, last: with [true] when the size
    [gzipSize] computed is truthy, with [false] when it is zero or [NaN]. *)
Theorem generateStats_outcome (filePath : string) (s : state) :
  match os_read filePath (machine s) with
  | inl e => generateStats filePath report s = Build_run (Thrown e) s [Read filePath]
  | inr src =>
    exists mid, calls mid = [] /\
      generateStats filePath report s
      = Build_run (Returned tt) s
          (mid ++ [Call [Bool (ToBoolean (Num (size_or_nan src (machine s))))]])%list
  end.
Proof.
  destruct (os_read filePath (machine s)) as [e|src] eqn:Hread.
  - unfold generateStats, bind.
    rewrite (gzipSize_not_read filePath e _ s Hread). reflexivity.
  - destruct (generateStats_returning filePath src report s s (fun args => [Call args])
                Hread (fun args => eq_refl)) as (mid & Hc & _ & _ & Hrun).
    exists mid. split; [exact Hc|exact Hrun].
Qed.

(** One call of [runStats] with [compile] true on a descriptor whose
    statistics can be computed, when the call it makes on the rest of the
    array returns: the file is compressed once, and the run goes on with the
    rest, whatever the statistics gave. *)
Lemma runStats_from_statable (fuel : nat) (cb : list value -> M unit) (m : sys)
    (c : commandObj) (q : list commandObj) (src : string) (s' : state)
    (t' : list event) :
  stat_source m c = Some src ->
  runStats_from fuel {| compile := true |} cb {| machine := m; commands := q |}
  = Build_run (Returned tt) s' t' ->
  exists t, calls t = [] /\ executed t = [] /\ compressed t = [src] /\
    runStats_from (S fuel) {| compile := true |} cb
      {| machine := m; commands := c :: q |}
    = Build_run (Returned tt) s' (t ++ t')%list.
Proof.
  intros Hsrc Hrest. unfold stat_source in Hsrc.
  destruct (fileObj c) as [f|] eqn:Hfile; [|discriminate Hsrc].
  destruct (FileObj.dest f) as [| | | |p|] eqn:Hdest; try discriminate Hsrc.
  destruct (ToBoolean (Str p)) eqn:Hp; [|discriminate Hsrc].
  destruct (ToBoolean (Num (Number_of_nat (String.length p)))) eqn:Hlen;
    [|discriminate Hsrc].
  cbn [andb] in Hsrc.
  destruct (os_read p m) as [e|src'] eqn:Hread; [discriminate Hsrc|].
  injection Hsrc as ->.
  destruct (generateStats_returning p src
              (fun _ => runStats_from fuel {| compile := true |} cb)
              {| machine := m; commands := q |} s' (fun _ => t')
              Hread (fun _ => Hrest)) as (mid & Hc & He & Hz & Hrun).
  exists (Log (Str ("File statistics for " ++ green p)) :: mid).
  split; [exact Hc|]. split; [exact He|]. split; [exact Hz|].
  cbn [runStats_from compile]. unfold bind at 1. cbn [Array_shift commands machine].
  rewrite Hfile. unfold bind at 1. cbn [ret after app]. rewrite Hdest, Hp.
  unfold bind at 1. cbn [Get String.eqb Ascii.eqb Bool.eqb].
  cbn [ret after app]. rewrite Hlen.
  unfold bind at 1. cbn [ret after app].
  unfold bind at 1. unfold log_info, console_log, emit at 1. cbn [after app ToString].
  rewrite Hrun. reflexivity.
Qed.

(** The calls of [runStats] over descriptors whose statistics can all be
    computed. *)
Lemma runStats_from_statable_prefix (cb : list value -> M unit) (m : sys)
    (pre : list commandObj) :
  forall (fuel : nat) (rest : list commandObj) (srcs : list string)
         (s' : state) (t' : list event),
  stat_sources m pre = Some srcs ->
  runStats_from fuel {| compile := true |} cb {| machine := m; commands := rest |}
  = Build_run (Returned tt) s' t' ->
  exists t, calls t = [] /\ executed t = [] /\ compressed t = srcs /\
    runStats_from (List.length pre + fuel) {| compile := true |} cb
      {| machine := m; commands := (pre ++ rest)%list |}
    = Build_run (Returned tt) s' (t ++ t')%list.
Proof.
  induction pre as [|c pre IH]; intros fuel rest srcs s' t' Hpre Hrest.
  - injection Hpre as <-. exists []. repeat split. exact Hrest.
  - cbn [stat_sources] in Hpre.
    destruct (stat_source m c) as [src|] eqn:Hsrc; [|discriminate Hpre].
    destruct (stat_sources m pre) as [srcs'|] eqn:Hsrcs; [|discriminate Hpre].
    injection Hpre as <-.
    destruct (IH fuel rest srcs' s' t' eq_refl Hrest) as (t2 & Hc2 & He2 & Hz2 & Hrun2).
    destruct (runStats_from_statable (List.length pre + fuel) cb m c (pre ++ rest)%list
                src s' (t2 ++ t')%list Hsrc Hrun2) as (t1 & Hc1 & He1 & Hz1 & Hrun1).
    exists (t1 ++ t2)%list. split; [|split; [|split]].
    + rewrite calls_app, Hc1, Hc2. reflexivity.
    + rewrite executed_app, He1, He2. reflexivity.
    + rewrite compressed_app, Hz1, Hz2. reflexivity.
    + change (List.length (c :: pre) + fuel)%nat with (S (List.length pre + fuel)).
      change ((c :: pre) ++ rest)%list with (c :: (pre ++ rest))%list.
      rewrite Hrun1, app_assoc. reflexivity.
Qed.

(** X12. With [compile] true, on an array of descriptors whose output files
    all pass the guard and can be read, [runStats] compresses each file
    once, in the order of the array, empties the array, and calls the
    callback once, with [true]: also when the compression of some file
    fails, since the outcome of the statistics is not looked at. *)
Theorem runStats_all_files (m : sys) (q : list commandObj) (srcs : list string) :
  stat_sources m q = Some srcs ->
  let run := runStats {| compile := true |} report {| machine := m; commands := q |} in
  result run = Returned tt
  /\ final run = {| machine := m; commands := [] |}
  /\ calls (events run) = [[Bool true]]
  /\ compressed (events run) = srcs
  /\ executed (events run) = [].
Proof.
  intros Hq run.
  destruct (runStats_from_statable_prefix report m q 1 [] srcs
              {| machine := m; commands := [] |} [Call [Bool true]] Hq eq_refl)
    as (t & Hc & He & Hz & Hrun).
  unfold run, runStats. cbn [commands].
  rewrite app_nil_r in Hrun.
  replace (S (List.length q)) with (List.length q + 1)%nat by lia.
  rewrite Hrun. cbn [result final events].
  rewrite calls_app, compressed_app, executed_app, Hc, He, Hz. cbn.
  rewrite app_nil_r. repeat split.
Qed.

(** X13. With [compile] true, on an array whose first descriptors can have
    their statistics computed and whose next one has an output file with a
    falsy [dest], [runStats] computes the statistics of the first ones and
    stops at that descriptor: it returns, the callback is never called, and
    the descriptors after it stay in the array. *)
Theorem runStats_stalls_midway (m : sys) (pre post : list commandObj)
    (c : commandObj) (f : FileObj.t) (srcs : list string) :
  stat_sources m pre = Some srcs ->
  fileObj c = Some f ->
  ToBoolean (FileObj.dest f) = false ->
  let run := runStats {| compile := true |} report
               {| machine := m; commands := (pre ++ c :: post)%list |} in
  result run = Returned tt
  /\ final run = {| machine := m; commands := post |}
  /\ calls (events run) = []
  /\ compressed (events run) = srcs.
Proof.
  intros Hpre Hfile Hdest run.
  assert (Hstall := runStats_falsy_dest m c f post report Hfile Hdest).
  unfold runStats in Hstall. cbn [commands List.length] in Hstall.
  destruct (runStats_from_statable_prefix report m pre (S (S (List.length post)))
              (c :: post) srcs _ _ Hpre Hstall) as (t & Hc & He & Hz & Hrun).
  unfold run, runStats. cbn [commands].
  replace (S (List.length (pre ++ c :: post)))
    with (List.length pre + S (S (List.length post)))%nat
    by (rewrite length_app; simpl; lia).
  rewrite Hrun. cbn [result final events]. rewrite !app_nil_r.
  repeat split; assumption.
Qed.

End WholeArray.

(** Two descriptors with output files on [three_files] ([gzip] fails on the
    second), and one with an empty [dest]. *)
Definition stats_of_a : commandObj :=
  {| cmd := "cc a"; dest := JS.Str "a.js";
     fileObj := Some (FileObj.Build (JS.Str "a.js")) |}.
Definition stats_of_big : commandObj :=
  {| cmd := "cc big"; dest := JS.Str "big.js";
     fileObj := Some (FileObj.Build (JS.Str "big.js")) |}.
Definition stats_of_nothing : commandObj :=
  {| cmd := "cc"; dest := JS.Str ""; fileObj := Some (FileObj.Build (JS.Str "")) |}.

Lemma runStats_all_files_witness :
  let run := @runStats three_files {| compile := true |} report
               (start three_files tt [stats_of_big; stats_of_a]) in
  result run = Returned tt
  /\ final run = start three_files tt []
  /\ calls (events run) = [[JS.Bool true]]
  /\ compressed (events run) = ["bbbbbbbb"; "a"]
  /\ executed (events run) = [].
Proof.
  exact (@runStats_all_files three_files tt [stats_of_big; stats_of_a]
           ["bbbbbbbb"; "a"] eq_refl).
Defined.

Lemma runStats_stalls_midway_witness :
  let run := @runStats three_files {| compile := true |} report
               (start three_files tt [stats_of_a; stats_of_nothing; stats_of_big]) in
  result run = Returned tt
  /\ final run = start three_files tt [stats_of_big]
  /\ calls (events run) = []
  /\ compressed (events run) = ["a"].
Proof.
  exact (@runStats_stalls_midway three_files tt [stats_of_a] [stats_of_big]
           stats_of_nothing (FileObj.Build (JS.Str "")) ["a"] eq_refl eq_refl eq_refl).
Defined.

(* ===================================================================== *)
(** * What [optSilent] changes, and what it does not *)
(* ===================================================================== *)

(** The events of a run that are not log lines. *)
Fixpoint unlogged (t : list event) : list event :=
  match t with
  | [] => []
  | Log _ :: t => unlogged t
  | e :: t => e :: unlogged t
  end.

Lemma unlogged_app (t u : list event) :
  unlogged (t ++ u) = (unlogged t ++ unlogged u)%list.
Proof.
  induction t as [|e t IH]; simpl; [reflexivity|].
  destruct e; simpl; rewrite IH; reflexivity.
Qed.

Section Silence.
Context {Sys : System}.
Import JS.

Lemma result_after {A} (t : list event) (r : run A) : result (after t r) = result r.
Proof. destruct r; reflexivity. Qed.

Lemma final_after {A} (t : list event) (r : run A) : final (after t r) = final r.
Proof. destruct r; reflexivity. Qed.

Lemma events_after {A} (t : list event) (r : run A) :
  events (after t r) = (t ++ events r)%list.
Proof. destruct r; reflexivity. Qed.

(** One call on a command that succeeds, with the events that are not log
    lines: the execution of the command. *)
Lemma runCommands_from_success_unlogged (fuel : nat) (cb : list value -> M unit)
    (optSilent : bool) (m m' : sys) (c : commandObj) (rest : list commandObj)
    (r : exec_result) :
  os_exec (cmd c) m = (r, m') -> err r = None ->
  exists t, unlogged t = [Exec (cmd c)] /\
    runCommands_from (S fuel) cb optSilent {| machine := m; commands := c :: rest |}
    = after t (runCommands_from fuel cb optSilent {| machine := m'; commands := rest |}).
Proof.
  intros Hexec Herr.
  exists (announce optSilent (cmd c) ++ [Exec (cmd c)]
          ++ (if optSilent then []
              else [Log (if ToBoolean (Str (stdout r)) then Str (stdout r)
                         else Str (stderr r));
                    Log (Str ("Command complete for target: " ++ ToString (dest c)))]))%list.
  split.
  - destruct optSilent; reflexivity.
  - cbn [runCommands_from]. unfold bind at 1. cbn [Array_shift commands after app].
    unfold executeCommand, bind, child_process_exec.
    destruct optSilent; cbn; rewrite Hexec; cbn; rewrite Herr; cbn;
      destruct (runCommands_from fuel cb _ _); reflexivity.
Qed.

Lemma runCommands_from_silence (fuel : nat) :
  forall s : state,
  result (runCommands_from fuel report true s) = result (runCommands_from fuel report false s)
  /\ final (runCommands_from fuel report true s) = final (runCommands_from fuel report false s)
  /\ unlogged (events (runCommands_from fuel report true s))
     = unlogged (events (runCommands_from fuel report false s)).
Proof.
  induction fuel as [|fuel IH]; intros [m q].
  - repeat split.
  - destruct q as [|c q]; [repeat split|].
    destruct (os_exec (cmd c) m) as [r m'] eqn:Hexec.
    destruct (err r) as [e|] eqn:Herr.
    + rewrite !(runCommands_from_failure fuel _ m m' c q r e Hexec Herr).
      repeat split.
    + destruct (runCommands_from_success_unlogged fuel report true m m' c q r Hexec Herr)
        as (t1 & Ht1 & ->).
      destruct (runCommands_from_success_unlogged fuel report false m m' c q r Hexec Herr)
        as (t2 & Ht2 & ->).
      rewrite !result_after, !final_after, !events_after, !unlogged_app, Ht1, Ht2.
      destruct (IH {| machine := m'; commands := q |}) as (Hr & Hf & He).
      rewrite Hr, Hf, He. repeat split.
Qed.

(** X11. [optSilent] changes the log lines of [runCommands] and nothing
    else: the silent run and the loud one end alike, leave the same machine
    and the same array, and have the same events once the log lines are
    taken out: the same commands run and the same call of the callback. *)
Theorem runCommands_silence (s : state) :
  let silent := runCommands report true s in
  let loud := runCommands report false s in
  result silent = result loud
  /\ final silent = final loud
  /\ unlogged (events silent) = unlogged (events loud).
Proof.
  cbv zeta. unfold runCommands.
  apply (runCommands_from_silence (S (List.length (commands s))) s).
Qed.

(** The commands of an array either all succeed, or there is a first that
    fails. *)
Lemma succeed_all_or_first_failure (q : list commandObj) :
  forall m : sys,
  (exists m', succeed_all m q = Some m')
  \/ (exists pre c post m1 r m2 e,
        q = (pre ++ c :: post)%list /\ succeed_all m pre = Some m1
        /\ os_exec (cmd c) m1 = (r, m2) /\ err r = Some e).
Proof.
  induction q as [|c q IH]; intro m.
  - left. exists m. reflexivity.
  - destruct (os_exec (cmd c) m) as [r m'] eqn:Hexec.
    destruct (err r) as [e|] eqn:Herr.
    + right. exists [], c, q, m, r, m', e. repeat split; assumption.
    + destruct (IH m') as [(m'' & Hall)|(pre & c' & post & m1 & r' & m2 & e & -> & Hpre & Hx & He)].
      * left. exists m''. cbn [succeed_all]. rewrite Hexec, Herr. exact Hall.
      * right. exists (c :: pre), c', post, m1, r', m2, e.
        repeat split; try assumption.
        cbn [succeed_all]. rewrite Hexec, Herr. exact Hpre.
Qed.

(** X16. On every array and every machine [runCommands] returns, and has
    called the callback exactly once by then; when it called it with [true]
    alone, the array is empty. *)
Theorem runCommands_calls_back_once (optSilent : bool) (s : state) :
  let run := runCommands report optSilent s in
  result run = Returned tt
  /\ exists args, calls (events run) = [args]
     /\ (args = [Bool true] \/ exists err out, args = [Bool false; Str err; Str out])
     /\ (args = [Bool true] -> commands (final run) = []).
Proof.
  destruct s as [m q]. cbv zeta.
  destruct (succeed_all_or_first_failure q m)
    as [(m' & Hall)|(pre & c & post & m1 & r & m2 & e & -> & Hpre & Hx & He)].
  - destruct (runCommands_from_prefix report optSilent q 1 m m' [] Hall)
      as (t & Ht & Hc & Hrun).
    rewrite app_nil_r in Hrun. unfold runCommands. cbn [commands].
    replace (S (List.length q)) with (List.length q + 1)%nat by lia.
    rewrite Hrun. cbn. rewrite calls_app, Hc. cbn.
    split; [reflexivity|]. exists [Bool true]. split; [reflexivity|].
    split; [left; reflexivity|reflexivity].
  - destruct (runCommands_until_failure optSilent m m1 m2 pre post c r e Hpre Hx He)
      as (t & Ht & Hc & Hrun).
    rewrite Hrun. cbn [result final events commands].
    rewrite !calls_app, Hc, calls_announce. cbn.
    split; [reflexivity|]. eexists. split; [reflexivity|].
    split; [right; eexists; eexists; reflexivity|intro H; discriminate H].
Qed.

End Silence.

(* ===================================================================== *)
(** * [helpers.md5file] *)
(* ===================================================================== *)

Section Md5.
Context {Sys : System}.
Import JS.

(** The hash object of [crypto]: [createHash('md5')], [update], and
    [digest('hex')]. *)
Variable Hash : Type.
Variable createHash : Hash.
Variable update : Hash -> string -> Hash.
Variable digest : Hash -> string.

(** [fs.ReadStream(filename)]: the chunks its [data] events carry, in order,
    and how it ends: with [end], or with an [error]. *)
Variable os_stream : string -> sys -> list string * option error.

(** [helpers.md5file].  The stream has a handler for [data] and one for
    [end]; an [error] event has none, and is raised.  The trace has no event
    for the stream itself. *)
Definition md5file (filename : string) (optCb : option (list value -> M unit))
    : M (settlement string) :=
  st <- with_machine (os_stream filename) ;;
  let cb := match optCb with
            | Some f => f
            | None => fun _ => ret tt
            end in
  let md5sum := fold_left update (fst st) createHash in
  match snd st with
  | Some e => throw e
  | None =>
    let hash := digest md5sum in
    cb [Str hash] ;;
    ret (Resolved hash)
  end.

Lemma concat_cons (x : string) (l : list string) :
  String.concat "" (x :: l) = x ++ String.concat "" l.
Proof.
  destruct l as [|y l]; cbn [String.concat].
  - induction x as [|a x IH]; cbn [append]; [reflexivity|]. rewrite <- IH. reflexivity.
  - reflexivity.
Qed.

(** X14. When the hash takes its input piecewise ([update] twice is [update]
    on the two pieces joined, and on nothing it is no change), [md5file] on a
    stream that ends resolves its promise with the digest of the whole
    contents, however the stream cut them into chunks, and calls the callback
    once, with that same digest. *)
Theorem md5file_digest_of_contents (filename : string) (chunks : list string)
    (s : state) :
  (forall h a b, update (update h a) b = update h (a ++ b)) ->
  (forall h, update h "" = h) ->
  os_stream filename (machine s) = (chunks, None) ->
  let hash := digest (update createHash (String.concat "" chunks)) in
  md5file filename (Some report) s
  = Build_run (Returned (Resolved hash)) s [Call [Str hash]]
  /\ md5file filename None s = Build_run (Returned (Resolved hash)) s [].
Proof.
  intros Hjoin Hnone Hstream hash.
  assert (Hfold : forall l h, fold_left update l h = update h (String.concat "" l)).
  { induction l as [|x l IH]; intro h.
    - cbn. symmetry. apply Hnone.
    - cbn [fold_left]. rewrite IH, Hjoin, concat_cons. reflexivity. }
  unfold md5file, bind, with_machine, report, emit, ret.
  rewrite Hstream. cbn [fst snd after app]. rewrite Hfold. split; reflexivity.
Qed.

End Md5.

Lemma append_nil_r (a : string) : a ++ "" = a.
Proof. induction a as [|x a IH]; cbn [append]; [reflexivity|]. rewrite IH. reflexivity. Qed.

Lemma md5file_digest_of_contents_witness :
  let md5file' :=
    @md5file shell_only string "" append (fun h => h)
      (fun _ _ => (["var a"; " = "; "1;"], None)) in
  md5file' "a.js" (Some report) (start shell_only tt [])
  = Build_run (Returned (Resolved "var a = 1;")) (start shell_only tt [])
      [Call [JS.Str "var a = 1;"]]
  /\ md5file' "a.js" None (start shell_only tt [])
     = Build_run (Returned (Resolved "var a = 1;")) (start shell_only tt []) [].
Proof.
  exact (@md5file_digest_of_contents shell_only string "" append (fun h => h)
           (fun _ _ => (["var a"; " = "; "1;"], None))
           "a.js" ["var a"; " = "; "1;"] (start shell_only tt [])
           append_assoc (fun h => append_nil_r h) eq_refl).
Defined.

(* ===================================================================== *)
(** * The task [test] of the Gruntfile *)
(* ===================================================================== *)

(** What the task asks of [grunt]: to delete a file, to run a list of tasks. *)
Inductive grunt_call : Set :=
| FileDelete (path : string)
| TaskRun (tasks : list string).

(** The tasks that were scheduled, in order. *)
Fixpoint scheduled (calls : list grunt_call) : list string :=
  match calls with
  | [] => []
  | TaskRun tasks :: calls => (tasks ++ scheduled calls)%list
  | FileDelete _ :: calls => scheduled calls
  end.

(** The paths that were deleted, in order. *)
Fixpoint deleted (calls : list grunt_call) : list string :=
  match calls with
  | [] => []
  | FileDelete path :: calls => path :: deleted calls
  | TaskRun _ :: calls => deleted calls
  end.

Section Gruntfile.
Import JS.

Variable file_expand : param -> JS.error + list string.

(** The function registered as the task [test], on its [target]. *)
Definition test_task (target : value) : error + list grunt_call :=
  let gruntTest := ["mochaTest:gruntTasks"] in
  let webTest : list string := [] in
  and_then (file_expand (ParamArr ["temp/*"])) (fun files =>
  inr (map FileDelete files
       ++ match target with
          | Str t =>
            if String.eqb t "tasks" || String.eqb t "grunt" || String.eqb t "node"
            then [TaskRun gruntTest]
            else if String.eqb t "web" then [TaskRun webTest]
            else [TaskRun webTest; TaskRun gruntTest]
          | _ => [TaskRun webTest; TaskRun gruntTest]
          end)%list).

Lemma scheduled_deletes (files : list string) (calls : list grunt_call) :
  scheduled (map FileDelete files ++ calls) = scheduled calls.
Proof. induction files as [|f files IH]; [reflexivity|exact IH]. Qed.

Lemma deleted_deletes (files : list string) (calls : list grunt_call) :
  deleted (map FileDelete files ++ calls) = (files ++ deleted calls)%list.
Proof. induction files as [|f files IH]; cbn; [reflexivity|]. rewrite IH. reflexivity. Qed.

(** X15. The task [test] deletes every file under [temp] before it
    schedules anything, and schedules the one task [mochaTest:gruntTasks]
    whatever its target is, a missing one too: unless the target is [web],
    for which it schedules nothing. *)
Theorem test_task_schedule (target : value) (files : list string) :
  file_expand (ParamArr ["temp/*"]) = inr files ->
  exists runs,
    test_task target = inr (map FileDelete files ++ runs)%list
    /\ deleted runs = []
    /\ scheduled runs = (if String.eqb (ToString target) "web"
                              && String.eqb (typeof target) "string"
                         then [] else ["mochaTest:gruntTasks"]).
Proof.
  intro Hfiles. unfold test_task. rewrite Hfiles. cbn [and_then].
  eexists. split; [reflexivity|].
  destruct target as [| |b|x|t|e]; try (split; reflexivity).
  - destruct b; split; reflexivity.
  - cbn [typeof ToString]. rewrite andb_false_r. split; reflexivity.
  - cbn [typeof ToString].
    destruct (String.eqb t "tasks") eqn:H1; [apply String.eqb_eq in H1; subst t; split; reflexivity|].
    destruct (String.eqb t "grunt") eqn:H2; [apply String.eqb_eq in H2; subst t; split; reflexivity|].
    destruct (String.eqb t "node") eqn:H3; [apply String.eqb_eq in H3; subst t; split; reflexivity|].
    cbn [orb]. destruct (String.eqb t "web"); split; reflexivity.
  - cbn [typeof ToString]. rewrite andb_false_r. split; reflexivity.
Qed.

End Gruntfile.

Lemma test_task_schedule_witness :
  exists runs,
    test_task two_globs (JS.Str "web") = inr (map FileDelete ["src/a.js"; "lib/b.js"] ++ runs)%list
    /\ deleted runs = []
    /\ scheduled runs = [].
Proof.
  exact (test_task_schedule two_globs (JS.Str "web") ["src/a.js"; "lib/b.js"] eq_refl).
Defined.

(* ===================================================================== *)
(** * An exception inside the statistics of an earlier file *)
(* ===================================================================== *)

Section Swallowed.
Context {Sys : System}.
Import JS.

(** [gzipSize] on a file that is read and compressed, with a callback that
    raises on the size and returns on [NaN]: the exception is kept by the
    promise, and the second call stands for the first. *)
Lemma gzipSize_retrying (file src : string) (res : list byte)
    (callback : float -> M unit) (s s1 s2 : state) (e : error) (t1 t2 : list event) :
  os_read file (machine s) = inr src ->
  os_gzip src (machine s) = inr res ->
  callback (Number_of_nat (List.length res)) s = Build_run (Thrown e) s1 t1 ->
  callback nan s1 = Build_run (Returned tt) s2 t2 ->
  gzipSize file callback s
  = Build_run (Returned (Fulfilled tt)) s2 ([Read file; Gzip src] ++ t1 ++ t2)%list.
Proof.
  intros Hread Hgzip Hfirst Hsecond.
  unfold gzipSize, gzipfile, grunt_file_read, zlib_gzip, with_machine, emit,
    promise_then, promise_otherwise, try_catch, bind.
  cbn -[Number_of_nat]. rewrite Hread. cbn -[Number_of_nat]. rewrite Hgzip.
  cbn -[Number_of_nat]. rewrite Hfirst. cbn -[Number_of_nat]. rewrite Hsecond.
  cbn -[Number_of_nat]. rewrite ?app_nil_r. reflexivity.
Qed.

(** The callback of [generateStats] with an [fn] that raises. *)
Lemma generateStats_callback_raising (filePath src : string)
    (fn : list value -> M unit) (s s1 : state) (e : error) (x : float) :
  os_read filePath (machine s) = inr src ->
  (forall args, fn args s = Build_run (Thrown e) s1 []) ->
  exists t, calls t = [] /\ compressed t = [] /\
    generateStats_callback filePath fn x s = Build_run (Thrown e) s1 t.
Proof.
  intros Hread Hfn. unfold generateStats_callback.
  destruct (ToBoolean (Num x)); cbn [negb].
  - unfold bind, grunt_file_read, with_machine, emit, log_info, console_log.
    cbn -[Number_toFixed Number_toString Number_of_nat percent green].
    rewrite Hread. cbn -[Number_toFixed Number_toString Number_of_nat percent green].
    rewrite Hfn. eexists. split; [|split; [|reflexivity]]; reflexivity.
  - rewrite Hfn. exists []. repeat split.
Qed.

(** X17. With [compile] true, a descriptor without an output file that
    follows a descriptor whose file was read and compressed does not end the
    run: the exception it causes is kept by the promise of the statistics
    before it, whose callback is then called with [NaN] and goes on with the
    next descriptor.  When the descriptors after it can all have their
    statistics computed, the array is emptied and the callback is called
    once, with [true]. *)
Theorem runStats_skips_missing_fileObj (m : sys) (a b : commandObj)
    (rest : list commandObj) (src : string) (res : list byte) (srcs : list string) :
  stat_source m a = Some src ->
  os_gzip src m = inr res ->
  fileObj b = None ->
  stat_sources m rest = Some srcs ->
  let run := runStats {| compile := true |} report
               {| machine := m; commands := a :: b :: rest |} in
  result run = Returned tt
  /\ final run = {| machine := m; commands := [] |}
  /\ calls (events run) = [[Bool true]]
  /\ compressed (events run) = src :: srcs.
Proof.
  intros Ha Hgzip Hb Hrest run.
  set (fuel := S (S (List.length rest))).
  set (fn := fun _ : list value => runStats_from fuel {| compile := true |} report).
  (* the call on [b :: rest] raises, [b] shifted *)
  assert (Hraise : forall args, fn args {| machine := m; commands := b :: rest |}
                   = Build_run (Thrown (TypeError "Cannot read property 'dest' of undefined"))
                       {| machine := m; commands := rest |} []).
  { intro args. unfold fn, fuel. cbn [runStats_from compile]. unfold bind at 1.
    cbn [Array_shift commands machine]. rewrite Hb. reflexivity. }
  (* the call on [rest] returns *)
  destruct (runStats_from_statable_prefix report m rest 2 [] srcs
              {| machine := m; commands := [] |} [Call [Bool true]] Hrest eq_refl)
    as (t & Hc & _ & Hz & Hgo).
  rewrite app_nil_r in Hgo.
  replace (List.length rest + 2)%nat with fuel in Hgo by (unfold fuel; lia).
  (* the statistics of [a] *)
  unfold stat_source in Ha.
  destruct (fileObj a) as [f|] eqn:Hfile; [|discriminate Ha].
  destruct (FileObj.dest f) as [| | | |p|] eqn:Hdest; try discriminate Ha.
  destruct (ToBoolean (Str p)) eqn:Hp; [|discriminate Ha].
  destruct (ToBoolean (Num (Number_of_nat (String.length p)))) eqn:Hlen;
    [|discriminate Ha].
  cbn [andb] in Ha.
  destruct (os_read p m) as [e|src'] eqn:Hread; [discriminate Ha|].
  injection Ha as ->.
  set (s0 := {| machine := m; commands := b :: rest |}).
  destruct (generateStats_callback_raising p src fn s0 {| machine := m; commands := rest |}
              _ (Number_of_nat (List.length res)) Hread Hraise)
    as (t1 & Hc1 & Hz1 & Hfirst).
  assert (Hsecond : generateStats_callback p fn nan {| machine := m; commands := rest |}
                    = Build_run (Returned tt) {| machine := m; commands := [] |}
                        (t ++ [Call [Bool true]])%list).
  { rewrite (generateStats_callback_falsy p fn nan eq_refl). exact Hgo. }
  assert (Hstats := gzipSize_retrying p src res (generateStats_callback p fn) s0 _ _ _ _ _
                      Hread Hgzip Hfirst Hsecond).
  assert (Hrun : run = Build_run (Returned tt) {| machine := m; commands := [] |}
                   (Log (Str ("File statistics for " ++ green p))
                    :: [Read p; Gzip src] ++ t1 ++ t ++ [Call [Bool true]])%list).
  { unfold run, runStats. cbn [commands List.length].
    fold fuel. cbn [runStats_from compile]. unfold bind at 1.
    cbn [Array_shift commands machine].
    rewrite Hfile. unfold bind at 1. cbn [ret after app]. rewrite Hdest, Hp.
    unfold bind at 1. cbn [Get String.eqb Ascii.eqb Bool.eqb].
    cbn [ret after app]. rewrite Hlen.
    unfold bind at 1. cbn [ret after app].
    unfold bind at 1. unfold log_info, console_log, emit at 1. cbn [after app ToString].
    unfold generateStats, bind. fold fn. fold s0. rewrite Hstats.
    cbn [after ret app]. rewrite ?app_nil_r. reflexivity. }
  rewrite Hrun. cbn [result final events calls compressed app].
  rewrite !calls_app, !compressed_app, Hc, Hc1, Hz, Hz1. cbn.
  rewrite app_nil_r. repeat split.
Qed.

End Swallowed.

(** A descriptor without an output file. *)
Definition stats_of_none : commandObj :=
  {| cmd := "cc none"; dest := JS.Str "none.js"; fileObj := None |}.

Lemma runStats_skips_missing_fileObj_witness :
  let run := @runStats three_files {| compile := true |} report
               (start three_files tt [stats_of_a; stats_of_none; stats_of_big]) in
  result run = Returned tt
  /\ final run = start three_files tt []
  /\ calls (events run) = [[JS.Bool true]]
  /\ compressed (events run) = ["a"; "bbbbbbbb"].
Proof.
  exact (@runStats_skips_missing_fileObj three_files tt stats_of_a stats_of_none
           [stats_of_big] "a" gzip_of_a ["bbbbbbbb"] eq_refl eq_refl eq_refl eq_refl).
Defined.
